(** * geddit: the application-only OAuth session

    A shallow embedding of [apponlyoauth_session.go] (package [geddit]):
    the session record, its constructor, the token refresh, the low-level
    fetch [getBody] and the endpoint methods built on it.

    Layout:
    - [url]  : the part of Go's [net/url] the endpoints use ([Values]);
    - [fmt]  : the fragment of [fmt.Sprintf] the endpoints use;
    - [Geddit] : the session and its methods, over the collaborators the
      package calls (clock, token endpoint, HTTP transport, JSON codec);
    - the properties of the session, by topic. *)

From Stdlib Require Import ZArith Ascii String.
From stdpp Require Import base option list gmap strings sorting.

Local Open Scope Z_scope.

(** ** Go values *)

(** [time.Time] as a count of nanoseconds since the zero time, so the zero
    value of a [time.Time] field is [0] and [t.Before(u)] is [t < u]. *)
Definition Time := Z.

Definition Before (t u : Time) : bool := t <? u.

(** A call either returns or panics (nil pointer dereference). *)
Inductive outcome (A : Type) : Type :=
| Returns (a : A)
| Panics.
Arguments Returns {A} a.
Arguments Panics {A}.

(** Go's [error] values, tagged with the call that produced them. A nil
    [error] is [None] in [option error]. *)
Inductive error : Type :=
| ErrQueryValues (msg : string)   (* from query.Values *)
| ErrToken (msg : string)         (* from OAuthConfig.Token *)
| ErrNewRequest (msg : string)    (* from http.NewRequest *)
| ErrNoClient                     (* errors.New in getBody *)
| ErrDo (msg : string)            (* from Client.Do *)
| ErrUnmarshal (msg : string).    (* from json.Unmarshal *)

Definition Error (e : error) : string :=
  match e with
  | ErrQueryValues msg | ErrToken msg | ErrNewRequest msg
  | ErrDo msg | ErrUnmarshal msg => msg
  | ErrNoClient => "OAuth Session lacks HTTP client! Error getting token"
  end.

(** [p] is a prefix of [s]; [p] occurs in [s]. *)
Fixpoint has_prefix (p s : string) : bool :=
  match p, s with
  | EmptyString, _ => true
  | String a p', String b s' => bool_decide (a = b) && has_prefix p' s'
  | String _ _, EmptyString => false
  end.

Fixpoint mentions (p s : string) : bool :=
  has_prefix p s
  || match s with
     | EmptyString => false
     | String _ s' => mentions p s'
     end.

(** The error reports a failed token exchange. A session meets such an
    error in two places. One is [refreshToken]'s own call of
    [OAuthConfig.Token]. The other is [Client.Do]: the client that
    [OAuthConfig.Client] builds has a token source of its own, asks it for
    a token before it sends a request, and passes its failure on; package
    [oauth2] marks the messages of these failures with [oauth2:], and
    [net/http] wraps them without removing the mark. *)
Definition is_auth_error (e : error) : bool :=
  match e with
  | ErrToken _ => true
  | ErrDo msg => mentions "oauth2:" msg
  | _ => false
  end.

(** ** net/url: [Values] *)

Module url.

(** [type Values map[string][]string] *)
Abbreviation Values := (gmap string (list string)).

(** [v.Set(key, value)] replaces whatever the key held. *)
Definition Values_Set (v : Values) (key value : string) : Values :=
  <[key := [value]]> v.

(** [v.Get(key)]: the first value of the key, or the empty string. *)
Definition Values_Get (v : Values) (key : string) : string :=
  match v !! key with
  | Some (x :: _) => x
  | _ => ""
  end.

Definition in_range (lo hi : N) (c : Ascii.ascii) : bool :=
  let n := Ascii.N_of_ascii c in ((lo <=? n) && (n <=? hi))%N.

(** [shouldEscape(c, encodeQueryComponent)]: everything but the
    unreserved characters is escaped. *)
Definition shouldEscape (c : Ascii.ascii) : bool :=
  negb (in_range 97 122 c || in_range 65 90 c || in_range 48 57 c
        || Ascii.eqb c "-" || Ascii.eqb c "_"
        || Ascii.eqb c "." || Ascii.eqb c "~").

Definition upperhex (n : N) : Ascii.ascii :=
  Ascii.ascii_of_N (if (n <? 10)%N then 48 + n else 55 + n)%N.

Fixpoint QueryEscape (s : string) : string :=
  match s with
  | EmptyString => EmptyString
  | String c s' =>
      if shouldEscape c then
        if Ascii.eqb c " " then String "+" (QueryEscape s')
        else
          let n := Ascii.N_of_ascii c in
          String "%" (String (upperhex (n / 16)%N)
                        (String (upperhex (n mod 16)%N) (QueryEscape s')))
      else String c (QueryEscape s')
  end.

(** [slices.Sort] on strings: byte-wise lexicographic order. *)
Definition key_le (a b : string) : Prop := String.leb a b = true.

#[global] Instance key_le_dec a b : Decision (key_le a b).
Proof. unfold key_le. apply _. Defined.

Definition sorted_keys (v : Values) : list string :=
  merge_sort key_le (map_to_list v).*1.

Definition pairs_of (v : Values) (k : string) : list string :=
  (fun x => QueryEscape k +:+ "=" +:+ QueryEscape x) <$> default [] (v !! k).

Fixpoint join (sep : string) (l : list string) : string :=
  match l with
  | [] => ""
  | [x] => x
  | x :: l' => x +:+ sep +:+ join sep l'
  end.

(** [v.Encode()]: [key=value] pairs, keys sorted, joined by [&]. *)
Definition Values_Encode (v : Values) : string :=
  join "&" (mjoin (pairs_of v <$> sorted_keys v)).

End url.

(** ** fmt: [Sprintf] with string operands *)

Module fmt.

(** The directives modelled here are [%s] with an operand, [%s] with the
    operands used up, and [%%]. [None] means that the format leaves this
    fragment: another verb, a flag, a width, or operands left over. *)
Fixpoint doPrintf (format : string) (a : list string) : option string :=
  match format with
  | EmptyString => match a with [] => Some "" | _ => None end
  | String "%" (String "s" rest) =>
      match a with
      | x :: a' => (fun r => x +:+ r) <$> doPrintf rest a'
      | [] => (fun r => "%!s(MISSING)" +:+ r) <$> doPrintf rest []
      end
  | String "%" (String "%" rest) => String "%" <$> doPrintf rest a
  | String "%" _ => None
  | String c rest => String c <$> doPrintf rest a
  end.

(** A string without [%]: spliced into a format, it stands for itself. *)
Fixpoint plain (s : string) : bool :=
  match s with
  | EmptyString => true
  | String c rest => negb (Ascii.eqb c "%") && plain rest
  end.

(** [other] stands for what Go prints for a format outside the fragment. *)
Definition Sprintf (other : string -> list string -> string)
    (format : string) (a : list string) : string :=
  default (other format a) (doPrintf format a).

End fmt.

(** ** Collaborators *)

(** [clientcredentials.Config], with the fields the constructor sets. *)
Record Config : Type := {
  cfg_ClientID : string;
  cfg_ClientSecret : string;
  cfg_TokenURL : string;
}.

(** [oauth2.Token] *)
Record Token : Type := {
  AccessToken : string;
  Expiry : Time;
}.

(** [context.Context]; the session only ever holds [context.Background()]. *)
Inductive Context : Type := Background.

(** [http.Request], over the type of parsed URLs. *)
Record Request (U : Type) : Type := {
  Method : string;
  req_URL : U;
  Header : gmap string (list string);
}.
Arguments Method {U} _.
Arguments req_URL {U} _.
Arguments Header {U} _.

(** [type popularitySort string] *)
Definition popularitySort := string.

(** What [apponlyoauth_session.go] uses of the other files of package
    [geddit]: the record types its methods return, the options value they
    take and the comment-tree helper. [JSONValue] is what [json.Unmarshal]
    stores in an [interface{}]. *)
Class Package : Type := {
  ListingOptions : Type;
  Submission : Type;
  ID : Submission -> string;
  Comment : Type;
  Redditor : Type;
  Redditor_zero : Redditor;
  Subreddit : Type;
  Subreddit_zero : Subreddit;
  Trophy : Type;
  JSONValue : Type;
  buildComments : option JSONValue -> list Comment;
}.

(** The envelopes the endpoint methods decode into (declared inside the
    methods in the source). *)
Section Envelopes.
Context `{Package}.

(** [struct { Data *Submission }] *)
Record child : Type := { child_Data : option Submission }.

(** [resp] of [Listing] and [Response] of [SubredditSubmissions]; the
    field is [Data.Children]. *)
Record resp : Type := { Children : list child }.

(** [redditor] of [AboutRedditor] *)
Record redditor : Type := { redditor_Data : Redditor }.

(** [struct { Data Trophy }] *)
Record trophyItem : Type := { trophy_Data : Trophy }.

(** [trophyData] of [UserTrophies]; the field is [Data.Trophies]. *)
Record trophyData : Type := { Trophies : list trophyItem }.

(** [subreddit] of [AboutSubreddit] *)
Record subreddit : Type := { subreddit_Data : Subreddit }.
End Envelopes.

(** The libraries and the outside world. Calls that reach outside the
    process take and return the [World]; a [string] on the right of a sum is
    the message of the error the call returned. [json_Unmarshal_*] give the
    target after the call as well as the error: a failed decode may leave
    the target partly filled. *)
Class Libraries `{Package} : Type := {
  World : Type;
  HttpClient : Type;
  Response : Type;
  URL : Type;
  time_Now : World -> Time * World;
  query_Values : ListingOptions -> url.Values + string;
  fmt_other : string -> list string -> string;
  Config_Token : Config -> Context -> World -> (Token + string) * World;
  Config_Client : Config -> Context -> HttpClient;
  url_Parse : string -> URL + string;
  Client_Do : HttpClient -> Request URL -> World -> (Response + string) * World;
  ioutil_ReadAll : Response -> World -> (string * option string) * World;
  Body_Close : Response -> World -> World;
  json_Unmarshal_resp : string -> resp -> resp * option string;
  json_Unmarshal_redditor : string -> redditor -> redditor * option string;
  json_Unmarshal_trophyData : string -> trophyData -> trophyData * option string;
  json_Unmarshal_subreddit : string -> subreddit -> subreddit * option string;
  json_Unmarshal_any : string -> option JSONValue -> option JSONValue * option string;
}.

(** ** The session and its methods *)

Section Geddit.
Context `{Libraries}.

(** [AppOnlyOAuthSession]. [Client] and [OAuthConfig] are pointers:
    [None] is nil. *)
Record AppOnlyOAuthSession : Type := {
  Client : option HttpClient;
  ClientID : string;
  ClientSecret : string;
  OAuthConfig : option Config;
  TokenExpiry : Time;
  UserAgent : string;
  ctx : Context;
  Debug : bool;
}.

Definition set_TokenExpiry (t : Time) (a : AppOnlyOAuthSession) :=
  {| Client := Client a; ClientID := ClientID a;
     ClientSecret := ClientSecret a; OAuthConfig := OAuthConfig a;
     TokenExpiry := t; UserAgent := UserAgent a; ctx := ctx a;
     Debug := Debug a |}.

Definition set_Client (c : option HttpClient) (a : AppOnlyOAuthSession) :=
  {| Client := c; ClientID := ClientID a;
     ClientSecret := ClientSecret a; OAuthConfig := OAuthConfig a;
     TokenExpiry := TokenExpiry a; UserAgent := UserAgent a; ctx := ctx a;
     Debug := Debug a |}.

(** What the process does to the outside, in order. *)
Inductive Event : Type :=
| EvToken (cfg : Config)                        (* OAuthConfig.Token *)
| EvDo (c : HttpClient) (req : Request URL)     (* Client.Do *)
| EvReadAll (r : Response)
| EvClose (r : Response)
| EvPrintf (out : string).                      (* standard output *)

Definition is_exchange (e : Event) : bool :=
  match e with EvToken _ => true | _ => false end.

(** Number of calls of [OAuthConfig.Token] in a trace: the token
    exchanges the session makes itself. What the client does inside
    [Client.Do], its own token exchanges included, is part of the [EvDo]
    event and is not counted. *)
Definition exchanges (tr : list Event) : nat :=
  length (filter (fun e => is_exchange e = true) tr).

(** Addresses of heap cells that hold a [trophyItem]. *)
Definition loc := nat.

(** The process outside the session: the world, the trace of events so
    far, and the heap cells that [UserTrophies] hands out pointers into. *)
Record State : Type := {
  world : World;
  trace : list Event;
  heap : gmap loc trophyItem;
}.

(** *** State and panic monad

    A method runs on its receiver [*a] and the rest of the process, and
    returns or panics. *)

Definition M (A : Type) : Type :=
  AppOnlyOAuthSession * State -> outcome A * (AppOnlyOAuthSession * State).

#[global] Instance M_ret : MRet M := fun A x s => (Returns x, s).

#[global] Instance M_bind : MBind M := fun A B k m s =>
  match m s with
  | (Returns x, s') => k x s'
  | (Panics, s') => (Panics, s')
  end.

Definition panic {A} : M A := fun s => (Panics, s).

Definition get_session : M AppOnlyOAuthSession :=
  fun s => (Returns (fst s), s).

Definition modify_session (f : AppOnlyOAuthSession -> AppOnlyOAuthSession)
  : M unit :=
  fun s => (Returns tt, (f (fst s), snd s)).

(** Dereference of a pointer. *)
Definition deref {A} (p : option A) : M A :=
  match p with
  | Some x => mret x
  | None => panic
  end.

(** A call into the world that leaves no event. *)
Definition ask {A} (f : World -> A * World) : M A :=
  fun s => let '(x, w) := f (world (snd s)) in
           (Returns x,
            (fst s, {| world := w; trace := trace (snd s);
                       heap := heap (snd s) |})).

Definition emit (e : Event) : M unit :=
  fun s => (Returns tt,
            (fst s, {| world := world (snd s);
                       trace := trace (snd s) ++ [e];
                       heap := heap (snd s) |})).

(** A call into the world, logged. *)
Definition call {A} (e : Event) (f : World -> A * World) : M A :=
  _ ← emit e; ask f.

Definition effect (e : Event) (f : World -> World) : M unit :=
  call e (fun w => (tt, f w)).

(** The state after a call into the world that left no event, and after
    one that left the event [e]. *)
Definition unlogged (w : World) (st : State) : State :=
  {| world := w; trace := trace st; heap := heap st |}.

Definition logged (e : Event) (w : World) (st : State) : State :=
  {| world := w; trace := trace st ++ [e]; heap := heap st |}.

(** *** The constructor *)

Definition default_UserAgent : string :=
  "Geddit API Client https://github.com/imheresamir/geddit".

Definition NewAppOnlyOAuthSession
    (clientID clientSecret useragent : string) (debug : bool) (st : State)
  : (AppOnlyOAuthSession * option error) * State :=
  let s := {| Client := None; ClientID := ""; ClientSecret := "";
              OAuthConfig := None; TokenExpiry := 0; UserAgent := "";
              ctx := Background; Debug := false |} in
  let s :=
    if decide (useragent ≠ "") then
      {| Client := Client s; ClientID := ClientID s;
         ClientSecret := ClientSecret s; OAuthConfig := OAuthConfig s;
         TokenExpiry := TokenExpiry s; UserAgent := useragent;
         ctx := ctx s; Debug := Debug s |}
    else
      {| Client := Client s; ClientID := ClientID s;
         ClientSecret := ClientSecret s; OAuthConfig := OAuthConfig s;
         TokenExpiry := TokenExpiry s; UserAgent := default_UserAgent;
         ctx := ctx s; Debug := Debug s |} in
  let s :=
    {| Client := Client s; ClientID := clientID;
       ClientSecret := clientSecret;
       OAuthConfig :=
         Some {| cfg_ClientID := clientID; cfg_ClientSecret := clientSecret;
                 cfg_TokenURL := "https://www.reddit.com/api/v1/access_token" |};
       TokenExpiry := TokenExpiry s; UserAgent := UserAgent s;
       ctx := Background; Debug := Debug s |} in
  ((s, None), st).

(** *** refreshToken *)

Definition refreshToken : M (option error) :=
  now ← ask time_Now;
  a ← get_session;
  if Before now (TokenExpiry a) then mret None
  else
    cfg ← deref (OAuthConfig a);
    r ← call (EvToken cfg) (Config_Token cfg (ctx a));
    match r with
    | inr msg => mret (Some (ErrToken msg))
    | inl t =>
        _ ← modify_session (set_TokenExpiry (Expiry t));
        a ← get_session;
        cfg ← deref (OAuthConfig a);
        _ ← modify_session (set_Client (Some (Config_Client cfg (ctx a))));
        mret None
    end.

(** *** getBody *)

(** [http.NewRequest(method, link, nil)] fails when the link does not
    parse, and otherwise gives a request with an empty header. *)
Definition http_NewRequest (method link : string) : Request URL + string :=
  match url_Parse link with
  | inl u => inl {| Method := method; req_URL := u; Header := ∅ |}
  | inr msg => inr msg
  end.

(** [req.Header.Set(key, value)] *)
Definition Header_Set (req : Request URL) (key value : string) : Request URL :=
  {| Method := Method req; req_URL := req_URL req;
     Header := <[key := [value]]> (Header req) |}.

Definition nl : string := String (Ascii.ascii_of_N 10) "".

Definition debug_format : string :=
  "***DEBUG***" +:+ nl +:+ "Request Body: %s" +:+ nl +:+ "***DEBUG***"
  +:+ nl +:+ nl.

(** [d] is the target before the call and [unmarshal] is [json.Unmarshal]
    at the target's type; the result carries the target after the call.
    The error of [refreshToken] is dropped, and so is the one of
    [ioutil.ReadAll]. The deferred [Close] runs last. *)
Definition getBody {T : Type} (link : string) (d : T)
    (unmarshal : string -> T -> T * option string) : M (T * option error) :=
  _ ← refreshToken;
  match http_NewRequest "GET" link with
  | inr msg => mret (d, Some (ErrNewRequest msg))
  | inl req =>
      a ← get_session;
      let req := Header_Set req "User-Agent" (UserAgent a) in
      match Client a with
      | None => mret (d, Some ErrNoClient)
      | Some c =>
          r ← call (EvDo c req) (Client_Do c req);
          match r with
          | inr msg => mret (d, Some (ErrDo msg))
          | inl rsp =>
              rd ← call (EvReadAll rsp) (ioutil_ReadAll rsp);
              let body := fst rd in
              _ ← (if Debug a
                   then emit (EvPrintf (fmt.Sprintf fmt_other debug_format [body]))
                   else mret tt);
              let '(d', err) := unmarshal body d in
              _ ← effect (EvClose rsp) (Body_Close rsp);
              mret (d', ErrUnmarshal <$> err)
          end
      end
  end.

(** *** Endpoint methods *)

(** A nil slice and an empty one are both the empty list. *)

(** [for i, child := range children { submissions[i] = child.Data }] *)
Fixpoint range_children (i : nat) (children : list child)
    (submissions : list (option Submission)) : list (option Submission) :=
  match children with
  | [] => submissions
  | c :: rest => range_children (S i) rest (<[i := child_Data c]> submissions)
  end.

(** [make([]*Submission, len(children))] followed by the loop. *)
Definition collect_submissions (r : resp) : list (option Submission) :=
  range_children 0 (Children r) (replicate (length (Children r)) None).

(** [if sort != "" { p.Set("sort", string(sort)) }] *)
Definition with_sort (sort : popularitySort) (p : url.Values) : url.Values :=
  if decide (sort ≠ "") then url.Values_Set p "sort" sort else p.

(** The link [Listing] fetches, from the serialized options [p]. *)
Definition Listing_url (username listing : string) (sort : popularitySort)
    (p : url.Values) : string :=
  let p := with_sort sort p in
  fmt.Sprintf fmt_other "https://oauth.reddit.com/user/%s/%s?%s"
    [username; listing; url.Values_Encode p].

Definition Listing (username listing : string) (sort : popularitySort)
    (params : ListingOptions) : M (list (option Submission) * option error) :=
  match query_Values params with
  | inr msg => mret ([], Some (ErrQueryValues msg))
  | inl p =>
      let r := {| Children := [] |} in
      let url := Listing_url username listing sort p in
      res ← getBody url r json_Unmarshal_resp;
      match snd res with
      | Some err => mret ([], Some err)
      | None => mret (collect_submissions (fst res), None)
      end
  end.

Definition Upvoted (username : string) (sort : popularitySort)
    (params : ListingOptions) : M (list (option Submission) * option error) :=
  Listing username "upvoted" sort params.

Definition AboutRedditor_link (user : string) : string :=
  fmt.Sprintf fmt_other "https://oauth.reddit.com/user/%s/about" [user].

Definition AboutRedditor (user : string) : M (option Redditor * option error) :=
  let r := {| redditor_Data := Redditor_zero |} in
  let link := AboutRedditor_link user in
  res ← getBody link r json_Unmarshal_redditor;
  match snd res with
  | Some err => mret (None, Some err)
  | None => mret (Some (redditor_Data (fst res)), None)
  end.

(** The range variable [trophy] of [UserTrophies] is one variable for the
    whole loop: the file is written for Go before 1.22 (it imports
    [io/ioutil] and [golang.org/x/net/context]), where a [for ... range]
    declares its variables once. Its address is taken, so it lives in a
    heap cell; every iteration copies the next element into that cell, and
    [&trophy.Data] is each time the address of the same cell. *)
Definition new_cell (v : trophyItem) : M loc :=
  fun s => let l := fresh (dom (heap (snd s))) in
           (Returns l,
            (fst s, {| world := world (snd s); trace := trace (snd s);
                       heap := <[l := v]> (heap (snd s)) |})).

Definition assign (l : loc) (v : trophyItem) : M unit :=
  fun s => (Returns tt,
            (fst s, {| world := world (snd s); trace := trace (snd s);
                       heap := <[l := v]> (heap (snd s)) |})).

(** [*p] for a pointer [p] that [UserTrophies] returned. *)
Definition load (st : State) (p : loc) : option Trophy :=
  trophy_Data <$> heap st !! p.

(** [for _, trophy := range items { trophies = append(trophies, &trophy.Data) }]
    with [trophy] in cell [l]. *)
Fixpoint range_Trophies (l : loc) (items : list trophyItem)
    (trophies : list loc) : M (list loc) :=
  match items with
  | [] => mret trophies
  | item :: rest =>
      _ ← assign l item;
      range_Trophies l rest (trophies ++ [l])
  end.

Definition collect_trophies (t : trophyData) : M (list loc) :=
  match Trophies t with
  | [] => mret []
  | first :: _ => l ← new_cell first; range_Trophies l (Trophies t) []
  end.

Definition UserTrophies_url (user : string) : string :=
  fmt.Sprintf fmt_other "https://oauth.reddit.com/api/v1/user/%s/trophies" [user].

Definition UserTrophies (user : string) : M (list loc * option error) :=
  let t := {| Trophies := [] |} in
  let url := UserTrophies_url user in
  res ← getBody url t json_Unmarshal_trophyData;
  match snd res with
  | Some err => mret ([], Some err)
  | None => trophies ← collect_trophies (fst res); mret (trophies, None)
  end.

Definition AboutSubreddit_link (name : string) : string :=
  fmt.Sprintf fmt_other "https://oauth.reddit.com/r/%s/about" [name].

Definition AboutSubreddit (name : string) : M (option Subreddit * option error) :=
  let sr := {| subreddit_Data := Subreddit_zero |} in
  let link := AboutSubreddit_link name in
  res ← getBody link sr json_Unmarshal_subreddit;
  match snd res with
  | Some err => mret (None, Some err)
  | None => mret (Some (subreddit_Data (fst res)), None)
  end.

(** The link [Comments] fetches. It takes the arguments of the method;
    the body of the method does not use [sort]. *)
Definition Comments_link (h : Submission) (sort : popularitySort)
    (p : url.Values) : string :=
  fmt.Sprintf fmt_other "https://oauth.reddit.com/comments/%s?%s"
    [ID h; url.Values_Encode p].

(** [h] is a pointer. *)
Definition Comments (h : option Submission) (sort : popularitySort)
    (params : ListingOptions) : M (list Comment * option error) :=
  match query_Values params with
  | inr msg => mret ([], Some (ErrQueryValues msg))
  | inl p =>
      let c : option JSONValue := None in
      h' ← deref h;
      let link := Comments_link h' sort p in
      res ← getBody link c json_Unmarshal_any;
      match snd res with
      | Some err => mret ([], Some err)
      | None => mret (buildComments (fst res), None)
      end
  end.

(** The link [SubredditSubmissions] fetches. The subreddit name is part
    of the format string. *)
Definition SubredditSubmissions_redditURL (subreddit : string)
    (sort : popularitySort) (v : url.Values) : string :=
  let baseUrl := "https://oauth.reddit.com" in
  let baseUrl :=
    if decide (subreddit ≠ "") then baseUrl +:+ "/r/" +:+ subreddit
    else baseUrl in
  fmt.Sprintf fmt_other (baseUrl +:+ "/%s.json?%s") [sort; url.Values_Encode v].

Definition SubredditSubmissions (subreddit : string) (sort : popularitySort)
    (params : ListingOptions) : M (list (option Submission) * option error) :=
  match query_Values params with
  | inr msg => mret ([], Some (ErrQueryValues msg))
  | inl v =>
      let redditURL := SubredditSubmissions_redditURL subreddit sort v in
      let r := {| Children := [] |} in
      res ← getBody redditURL r json_Unmarshal_resp;
      match snd res with
      | Some err => mret ([], Some err)
      | None => mret (collect_submissions (fst res), None)
      end
  end.

Definition Frontpage (sort : popularitySort) (params : ListingOptions)
  : M (list (option Submission) * option error) :=
  SubredditSubmissions "" sort params.

(** *** The public methods as one interface *)

Inductive Call : Type :=
| CallListing (username listing : string) (sort : popularitySort)
    (params : ListingOptions)
| CallUpvoted (username : string) (sort : popularitySort)
    (params : ListingOptions)
| CallAboutRedditor (user : string)
| CallUserTrophies (user : string)
| CallAboutSubreddit (name : string)
| CallComments (h : option Submission) (sort : popularitySort)
    (params : ListingOptions)
| CallSubredditSubmissions (subreddit : string) (sort : popularitySort)
    (params : ListingOptions)
| CallFrontpage (sort : popularitySort) (params : ListingOptions).

(** The first result of a method. *)
Inductive Reply : Type :=
| Submissions (l : list (option Submission))
| ARedditor (r : option Redditor)
| Trophies_at (l : list loc)
| ASubreddit (r : option Subreddit)
| Comments_of (l : list Comment).

(** The result is nil: a nil slice or a nil pointer. *)
Definition is_nil (r : Reply) : bool :=
  match r with
  | Submissions [] | ARedditor None | Trophies_at []
  | ASubreddit None | Comments_of [] => true
  | _ => false
  end.

Definition reply {A} (wrap : A -> Reply) (m : M (A * option error))
  : M (Reply * option error) :=
  res ← m; mret (wrap (fst res), snd res).

Definition invoke (c : Call) : M (Reply * option error) :=
  match c with
  | CallListing u l s p => reply Submissions (Listing u l s p)
  | CallUpvoted u s p => reply Submissions (Upvoted u s p)
  | CallAboutRedditor u => reply ARedditor (AboutRedditor u)
  | CallUserTrophies u => reply Trophies_at (UserTrophies u)
  | CallAboutSubreddit n => reply ASubreddit (AboutSubreddit n)
  | CallComments h s p => reply Comments_of (Comments h s p)
  | CallSubredditSubmissions r s p => reply Submissions (SubredditSubmissions r s p)
  | CallFrontpage s p => reply Submissions (Frontpage s p)
  end.

(** The link a call fetches, when it gets as far as fetching. *)
Definition target_link (c : Call) : option string :=
  match c with
  | CallListing u l s params =>
      match query_Values params with
      | inl p => Some (Listing_url u l s p) | inr _ => None end
  | CallUpvoted u s params =>
      match query_Values params with
      | inl p => Some (Listing_url u "upvoted" s p) | inr _ => None end
  | CallAboutRedditor u => Some (AboutRedditor_link u)
  | CallUserTrophies u => Some (UserTrophies_url u)
  | CallAboutSubreddit n => Some (AboutSubreddit_link n)
  | CallComments h s params =>
      match query_Values params, h with
      | inl p, Some h' => Some (Comments_link h' s p) | _, _ => None end
  | CallSubredditSubmissions r s params =>
      match query_Values params with
      | inl v => Some (SubredditSubmissions_redditURL r s v) | inr _ => None end
  | CallFrontpage s params =>
      match query_Values params with
      | inl v => Some (SubredditSubmissions_redditURL "" s v) | inr _ => None end
  end.

(** What [json.Unmarshal] reports on a body, at the envelope of the call
    and from the zero target the method passes. *)
Definition decode_error (c : Call) (body : string) : option string :=
  match c with
  | CallListing _ _ _ _ | CallUpvoted _ _ _
  | CallSubredditSubmissions _ _ _ | CallFrontpage _ _ =>
      snd (json_Unmarshal_resp body {| Children := [] |})
  | CallAboutRedditor _ =>
      snd (json_Unmarshal_redditor body {| redditor_Data := Redditor_zero |})
  | CallUserTrophies _ =>
      snd (json_Unmarshal_trophyData body {| Trophies := [] |})
  | CallAboutSubreddit _ =>
      snd (json_Unmarshal_subreddit body {| subreddit_Data := Subreddit_zero |})
  | CallComments _ _ _ => snd (json_Unmarshal_any body None)
  end.

(** The operations on a session: the token refresh and the public
    methods. [exec] is the state an operation leaves, whether it returns
    or panics. *)
Inductive Op : Type :=
| OpRefresh
| OpCall (c : Call).

Definition exec (op : Op) (s : AppOnlyOAuthSession * State)
  : AppOnlyOAuthSession * State :=
  match op with
  | OpRefresh => snd (refreshToken s)
  | OpCall c => snd (invoke c s)
  end.

Definition exec_all (ops : list Op) (s : AppOnlyOAuthSession * State)
  : AppOnlyOAuthSession * State :=
  foldl (fun s op => exec op s) s ops.

(** [n] calls of [refreshToken] in a row, with what each returned. *)
Fixpoint refreshToken_times (n : nat) : M (list (option error)) :=
  match n with
  | O => mret []
  | S k => r ← refreshToken; rs ← refreshToken_times k; mret (r :: rs)
  end.

(** The next [n] readings of the clock are all before [expiry]. *)
Fixpoint readings_before (n : nat) (expiry : Time) (w : World) : Prop :=
  match n with
  | O => True
  | S k => Before (fst (time_Now w)) expiry = true
           ∧ readings_before k expiry (snd (time_Now w))
  end.

(** The part of [getBody] before the decoding: the link is fetched and
    the body read (and printed, in debug mode). *)
Definition fetch (link : string) : M (error + Response * string) :=
  _ ← refreshToken;
  match http_NewRequest "GET" link with
  | inr msg => mret (inl (ErrNewRequest msg))
  | inl req =>
      a ← get_session;
      let req := Header_Set req "User-Agent" (UserAgent a) in
      match Client a with
      | None => mret (inl ErrNoClient)
      | Some c =>
          r ← call (EvDo c req) (Client_Do c req);
          match r with
          | inr msg => mret (inl (ErrDo msg))
          | inl rsp =>
              rd ← call (EvReadAll rsp) (ioutil_ReadAll rsp);
              let body := fst rd in
              _ ← (if Debug a
                   then emit (EvPrintf (fmt.Sprintf fmt_other debug_format [body]))
                   else mret tt);
              mret (inr (rsp, body))
          end
      end
  end.

(** The requests among the events [evs] are [GET] requests for [link]
    that carry the user agent [ua]. *)
Definition requests_for (link ua : string) (evs : list Event) : Prop :=
  forall c req, EvDo c req ∈ evs ->
    exists req0, http_NewRequest "GET" link = inl req0
                 /\ req = Header_Set req0 "User-Agent" ua.

(** The URLs of the requests in a trace, in order. *)
Definition requested (tr : list Event) : list URL :=
  omap (fun e => match e with EvDo _ req => Some (req_URL req) | _ => None end) tr.

(** A computation keeps a property of the session. *)
Definition preserves (P : AppOnlyOAuthSession -> Prop) {A} (m : M A) : Prop :=
  forall s, P s.1 -> P (m s).2.1.

Definition has_client (a : AppOnlyOAuthSession) : Prop := Client a <> None.

(** Every run of [refreshToken] is one of the four. *)
Inductive refresh_path (a : AppOnlyOAuthSession) (st : State)
  : outcome (option error) -> AppOnlyOAuthSession -> State -> Prop :=
| path_fresh :
    Before (time_Now (world st)).1 (TokenExpiry a) = true ->
    refresh_path a st (Returns None) a (unlogged (time_Now (world st)).2 st)
| path_nil_config :
    Before (time_Now (world st)).1 (TokenExpiry a) = false ->
    OAuthConfig a = None ->
    refresh_path a st Panics a (unlogged (time_Now (world st)).2 st)
| path_failure cfg msg w2 :
    Before (time_Now (world st)).1 (TokenExpiry a) = false ->
    OAuthConfig a = Some cfg ->
    Config_Token cfg (ctx a) (time_Now (world st)).2 = (inr msg, w2) ->
    refresh_path a st (Returns (Some (ErrToken msg))) a
      (logged (EvToken cfg) w2 st)
| path_success cfg tok w2 :
    Before (time_Now (world st)).1 (TokenExpiry a) = false ->
    OAuthConfig a = Some cfg ->
    Config_Token cfg (ctx a) (time_Now (world st)).2 = (inl tok, w2) ->
    refresh_path a st (Returns None)
      (set_Client (Some (Config_Client cfg (ctx a))) (set_TokenExpiry (Expiry tok) a))
      (logged (EvToken cfg) w2 st).

End Geddit.

(** ** A scripted world

    Stand-ins for the collaborators, to run the methods on concrete inputs:
    the clock ticks once per reading, the token endpoint and the platform
    answer from scripts, and a toy codec stands for JSON. In the toy codec
    every byte of a body is one element, and the byte [!] is where the
    decoder stops with an error, keeping what it decoded before. *)

Module Demo.

Record Script : Type := {
  clock : Time;
  token_script : list (Token + string);
  http_script : list (string + string);
}.

Definition script_time_Now (w : Script) : Time * Script :=
  (clock w, {| clock := clock w + 1; token_script := token_script w;
               http_script := http_script w |}).

Definition script_Config_Token (_ : Config) (_ : Context) (w : Script)
  : (Token + string) * Script :=
  match token_script w with
  | [] => (inr "connection refused", w)
  | r :: rest => (r, {| clock := clock w; token_script := rest;
                        http_script := http_script w |})
  end.

Definition is_hex (c : Ascii.ascii) : bool :=
  url.in_range 48 57 c || url.in_range 65 70 c || url.in_range 97 102 c.

(** A [%] that is not followed by two hex digits, before any [?]. *)
Fixpoint bad_escape (s : string) : bool :=
  match s with
  | String "?" _ => false
  | String "%" (String a (String b _) as rest) =>
      negb (is_hex a && is_hex b) || bad_escape rest
  | String "%" _ => true
  | String _ rest => bad_escape rest
  | EmptyString => false
  end.

Definition script_url_Parse (link : string) : string + string :=
  if bad_escape link then inr "invalid URL escape" else inl link.

Definition script_Client_Do (_ : Config) (_ : Request string) (w : Script)
  : (string + string) * Script :=
  match http_script w with
  | [] => (inr "connection refused", w)
  | r :: rest => (r, {| clock := clock w; token_script := token_script w;
                        http_script := rest |})
  end.

Definition script_ioutil_ReadAll (rsp : string) (w : Script)
  : (string * option string) * Script := ((rsp, None), w).

Definition script_Body_Close (_ : string) (w : Script) : Script := w.

(** The toy codec: the elements decoded before the first [!], and whether
    the body was cut short by one. *)
Fixpoint decode (body : string) : list string * option string :=
  match body with
  | EmptyString => ([], None)
  | String "!" _ => ([], Some "invalid character '!'")
  | String c rest => let '(l, e) := decode rest in (String c "" :: l, e)
  end.

Definition package : Package :=
  {| ListingOptions := list (string * string);
     Submission := string;
     ID := fun s => s;
     Comment := string;
     Redditor := string;
     Redditor_zero := "";
     Subreddit := string;
     Subreddit_zero := "";
     Trophy := string;
     JSONValue := list string;
     buildComments := fun c => default [] c |}.

#[local] Existing Instance package.

Definition script_query_Values (params : list (string * string)) : url.Values + string :=
  inl (list_to_map ((fun kv => (fst kv, [snd kv])) <$> params)).

Definition libraries : @Libraries package :=
  {| World := Script;
     HttpClient := Config;
     Response := string;
     URL := string;
     time_Now := script_time_Now;
     query_Values := script_query_Values;
     fmt_other := fun _ _ => "";
     Config_Token := script_Config_Token;
     Config_Client := fun cfg _ => cfg;
     url_Parse := script_url_Parse;
     Client_Do := script_Client_Do;
     ioutil_ReadAll := script_ioutil_ReadAll;
     Body_Close := script_Body_Close;
     json_Unmarshal_resp := fun body _ =>
       ({| Children := (fun x => {| child_Data := Some x |}) <$> (decode body).1 |},
        (decode body).2);
     json_Unmarshal_redditor := fun body d =>
       ({| redditor_Data := body |}, (decode body).2);
     json_Unmarshal_trophyData := fun body _ =>
       ({| Trophies := (fun x => {| trophy_Data := x |}) <$> (decode body).1 |},
        (decode body).2);
     json_Unmarshal_subreddit := fun body d =>
       ({| subreddit_Data := body |}, (decode body).2);
     json_Unmarshal_any := fun body _ =>
       (Some (decode body).1, (decode body).2) |}.

#[local] Existing Instance libraries.

(** A session as the constructor makes it, in a process that has done
    nothing yet. *)
Definition start (w : Script) : @State package libraries :=
  {| world := w; trace := []; heap := ∅ |}.

Definition fresh_session : @AppOnlyOAuthSession package libraries :=
  fst (fst (NewAppOnlyOAuthSession "id" "secret" "" false
              (start {| clock := 0; token_script := []; http_script := [] |}))).

Definition cfg : Config :=
  {| cfg_ClientID := "id"; cfg_ClientSecret := "secret";
     cfg_TokenURL := "https://www.reddit.com/api/v1/access_token" |}.

(** The session once a token with expiry [100] has been obtained. *)
Definition established : @AppOnlyOAuthSession package libraries :=
  set_Client (Some cfg) (set_TokenExpiry 100 fresh_session).

(** The token endpoint turns the exchange down. *)
Definition rejecting (now : Time) (bodies : list (string + string)) : Script :=
  {| clock := now; token_script := [inr "401 Unauthorized"];
     http_script := bodies |}.

(** The token endpoint grants a token that expires at [100]. *)
Definition granting (now : Time) (bodies : list (string + string)) : Script :=
  {| clock := now;
     token_script := [inl {| AccessToken := "token"; Expiry := 100 |}];
     http_script := bodies |}.

Definition limit2 : @ListingOptions package := [("limit", "2")].

Definition trophy (x : string) : @trophyItem package := {| trophy_Data := x |}.

Definition kid (x : string) : @child package := {| child_Data := Some x |}.

(** The zero targets of [AboutRedditor] and [AboutSubreddit]. *)
Definition no_redditor : @redditor package := {| redditor_Data := "" |}.

Definition no_subreddit : @subreddit package := {| subreddit_Data := "" |}.

End Demo.



(** ** Observations on a run *)

Section Observations.
Context `{Libraries}.



Definition printed (tr : list Event) : list string :=
  omap (fun e => match e with EvPrintf out => Some out | _ => None end) tr.

(** What [refreshToken] adds to the trace of a session [a]: nothing, or one
    exchange with the configuration of [a]. *)
Inductive exchange_events (a : AppOnlyOAuthSession) : list Event -> Prop :=
| exchange_none : exchange_events a []
| exchange_one cfg :
    OAuthConfig a = Some cfg -> exchange_events a [EvToken cfg].

(** What the rest of [getBody] adds for the link [link]: nothing; a round
    trip that failed; or a round trip, the reading of the body, the debug
    print in debug mode, and the close. *)
Inductive round_trip_events (a : AppOnlyOAuthSession) (link : string)
  : list Event -> Prop :=
| round_trip_none : round_trip_events a link []
| round_trip_failed c req0 :
    http_NewRequest "GET" link = inl req0 ->
    round_trip_events a link
      [EvDo c (Header_Set req0 "User-Agent" (UserAgent a))]
| round_trip_quiet c req0 rsp :
    http_NewRequest "GET" link = inl req0 ->
    Debug a = false ->
    round_trip_events a link
      [EvDo c (Header_Set req0 "User-Agent" (UserAgent a));
       EvReadAll rsp; EvClose rsp]
| round_trip_debug c req0 rsp body :
    http_NewRequest "GET" link = inl req0 ->
    Debug a = true ->
    round_trip_events a link
      [EvDo c (Header_Set req0 "User-Agent" (UserAgent a));
       EvReadAll rsp;
       EvPrintf (fmt.Sprintf fmt_other debug_format [body]);
       EvClose rsp].

(** The nil result of each method. *)
Definition nil_reply (c : Call) : Reply :=
  match c with
  | CallListing _ _ _ _ | CallUpvoted _ _ _
  | CallSubredditSubmissions _ _ _ | CallFrontpage _ _ => Submissions []
  | CallAboutRedditor _ => ARedditor None
  | CallUserTrophies _ => Trophies_at []
  | CallAboutSubreddit _ => ASubreddit None
  | CallComments _ _ _ => Comments_of []
  end.

(** The options a call passes to [query.Values], if it takes options. *)
Definition call_options (c : Call) : option ListingOptions :=
  match c with
  | CallListing _ _ _ p | CallUpvoted _ _ p | CallComments _ _ p
  | CallSubredditSubmissions _ _ p | CallFrontpage _ p => Some p
  | _ => None
  end.

(** The call is [Comments] on a nil submission. *)
Definition nil_submission (c : Call) : bool :=
  match c with
  | CallComments None _ _ => true
  | _ => false
  end.

(** A property of the session that the two assignments of [refreshToken]
    keep. *)
Definition stable (P : AppOnlyOAuthSession -> Prop) : Prop :=
  forall a t c, P a -> P (set_Client c (set_TokenExpiry t a)).

(** The fields no method assigns. *)
Definition same_identity (a b : AppOnlyOAuthSession) : Prop :=
  ClientID b = ClientID a /\ ClientSecret b = ClientSecret a
  /\ OAuthConfig b = OAuthConfig a /\ UserAgent b = UserAgent a
  /\ ctx b = ctx a /\ Debug b = Debug a.

End Observations.

(** ** A scripted world whose options can fail

    As [Demo], but the serializer of the options refuses an option with an
    empty name. *)

Module Strict.

#[local] Existing Instance Demo.package.

Definition script_query_Values (params : list (string * string))
  : url.Values + string :=
  if bool_decide ("" ∈ params.*1) then inr "empty option name"
  else Demo.script_query_Values params.

Definition libraries : @Libraries Demo.package :=
  {| World := Demo.Script;
     HttpClient := Config;
     Response := string;
     URL := string;
     time_Now := Demo.script_time_Now;
     query_Values := script_query_Values;
     fmt_other := fun _ _ => "";
     Config_Token := Demo.script_Config_Token;
     Config_Client := fun cfg _ => cfg;
     url_Parse := Demo.script_url_Parse;
     Client_Do := Demo.script_Client_Do;
     ioutil_ReadAll := Demo.script_ioutil_ReadAll;
     Body_Close := Demo.script_Body_Close;
     json_Unmarshal_resp := @json_Unmarshal_resp _ Demo.libraries;
     json_Unmarshal_redditor := @json_Unmarshal_redditor _ Demo.libraries;
     json_Unmarshal_trophyData := @json_Unmarshal_trophyData _ Demo.libraries;
     json_Unmarshal_subreddit := @json_Unmarshal_subreddit _ Demo.libraries;
     json_Unmarshal_any := @json_Unmarshal_any _ Demo.libraries |}.

#[local] Existing Instance libraries.

Definition nameless : @ListingOptions Demo.package := [("", "x")].

Definition start (w : Demo.Script) : @State Demo.package libraries :=
  {| world := w; trace := []; heap := ∅ |}.

Definition fresh_session : @AppOnlyOAuthSession Demo.package libraries :=
  (@NewAppOnlyOAuthSession Demo.package libraries "id" "secret" "" false
     (start (Demo.granting 5 []))).1.1.

(** [Comments] on a nil submission, with the sort key [top]. *)
Definition nil_comments : @Call Demo.package :=
  CallComments None "top" nameless.

End Strict.

(** ** A scripted world whose codec knows the empty object

    As [Demo], but the body [{}] decodes as [encoding/json] decodes an
    object that has none of the fields of the target: the target stays as
    it was and there is no error. *)

Module Lenient.

#[local] Existing Instance Demo.package.

Definition or_keep {T} (um : string -> T -> T * option string)
    (body : string) (d : T) : T * option string :=
  if bool_decide (body = "{}") then (d, None) else um body d.

Definition libraries : @Libraries Demo.package :=
  {| World := Demo.Script;
     HttpClient := Config;
     Response := string;
     URL := string;
     time_Now := Demo.script_time_Now;
     query_Values := Demo.script_query_Values;
     fmt_other := fun _ _ => "";
     Config_Token := Demo.script_Config_Token;
     Config_Client := fun cfg _ => cfg;
     url_Parse := Demo.script_url_Parse;
     Client_Do := Demo.script_Client_Do;
     ioutil_ReadAll := Demo.script_ioutil_ReadAll;
     Body_Close := Demo.script_Body_Close;
     json_Unmarshal_resp := or_keep (@json_Unmarshal_resp _ Demo.libraries);
     json_Unmarshal_redditor := or_keep (@json_Unmarshal_redditor _ Demo.libraries);
     json_Unmarshal_trophyData := or_keep (@json_Unmarshal_trophyData _ Demo.libraries);
     json_Unmarshal_subreddit := or_keep (@json_Unmarshal_subreddit _ Demo.libraries);
     json_Unmarshal_any := or_keep (@json_Unmarshal_any _ Demo.libraries) |}.

#[local] Existing Instance libraries.

Definition start (w : Demo.Script) : @State Demo.package libraries :=
  {| world := w; trace := []; heap := ∅ |}.

(** The session once a token with expiry [100] has been obtained. *)
Definition established : @AppOnlyOAuthSession Demo.package libraries :=
  set_Client (Some Demo.cfg)
    (set_TokenExpiry 100
       (@NewAppOnlyOAuthSession Demo.package libraries "id" "secret" "" false
          (start (Demo.granting 5 []))).1.1).

Definition about_bob : @Call Demo.package := CallAboutRedditor "bob".

End Lenient.

(** Calls in the world of [Demo]. *)
Module Samples.

#[local] Existing Instance Demo.package.
#[local] Existing Instance Demo.libraries.

Definition comments : @Call Demo.package :=
  CallComments (Some "abc123") "top" Demo.limit2.

Definition about_bob : @Call Demo.package := CallAboutRedditor "bob".

Definition trophies (user : string) : @Call Demo.package :=
  CallUserTrophies user.

Definition about_golang : @Call Demo.package :=
  CallAboutSubreddit "golang".

(** A session in debug mode: the debug flag is a public field. *)
Definition debugging : @AppOnlyOAuthSession Demo.package Demo.libraries :=
  {| Client := Some Demo.cfg; ClientID := "id"; ClientSecret := "secret";
     OAuthConfig := Some Demo.cfg; TokenExpiry := 100;
     UserAgent := "geddit test"; ctx := Background; Debug := true |}.

End Samples.

(** * Properties *)

(** Proofs run the monad symbolically; what stands for a whole call stays
    folded. *)
Arguments refreshToken : simpl never.
Arguments getBody : simpl never.
Arguments fetch : simpl never.
Arguments fmt.Sprintf : simpl never.
Arguments Listing_url : simpl never.
Arguments AboutRedditor_link : simpl never.
Arguments UserTrophies_url : simpl never.
Arguments AboutSubreddit_link : simpl never.
Arguments Comments_link : simpl never.
Arguments SubredditSubmissions_redditURL : simpl never.
Arguments collect_trophies : simpl never.
Arguments collect_submissions : simpl never.

(** Running the monad: unfold its operations and compute. *)
Ltac run :=
  repeat progress
    (unfold call, effect, emit, ask, get_session, modify_session, deref,
       panic, mbind, M_bind, mret, M_ret in *; simpl in *).

(** Unfold a call down to its [getBody]. *)
Ltac unfold_methods :=
  unfold reply, Upvoted, Frontpage, Listing, AboutRedditor, UserTrophies,
    AboutSubreddit, Comments, SubredditSubmissions in *.

Section Refresh.
Context `{Libraries}.

(** The four ways through [refreshToken]. *)
Lemma refreshToken_fresh a st :
  Before (time_Now (world st)).1 (TokenExpiry a) = true ->
  refreshToken (a, st) = (Returns None, (a, unlogged (time_Now (world st)).2 st)).
Proof.
  intros Hb. unfold refreshToken. run.
  destruct (time_Now (world st)) as [t w1]; simpl in *. rewrite Hb. reflexivity.
Qed.

Lemma refreshToken_nil_config a st :
  Before (time_Now (world st)).1 (TokenExpiry a) = false ->
  OAuthConfig a = None ->
  refreshToken (a, st) = (Panics, (a, unlogged (time_Now (world st)).2 st)).
Proof.
  intros Hb Hc. unfold refreshToken. run.
  destruct (time_Now (world st)) as [t w1]; simpl in *. rewrite Hb, Hc. reflexivity.
Qed.

Lemma refreshToken_failure a st cfg msg w2 :
  Before (time_Now (world st)).1 (TokenExpiry a) = false ->
  OAuthConfig a = Some cfg ->
  Config_Token cfg (ctx a) (time_Now (world st)).2 = (inr msg, w2) ->
  refreshToken (a, st)
  = (Returns (Some (ErrToken msg)), (a, logged (EvToken cfg) w2 st)).
Proof.
  intros Hb Hc Ht. unfold refreshToken. run.
  destruct (time_Now (world st)) as [t w1]; simpl in *. rewrite Hb, Hc; simpl.
  rewrite Ht. reflexivity.
Qed.

Lemma refreshToken_success a st cfg tok w2 :
  Before (time_Now (world st)).1 (TokenExpiry a) = false ->
  OAuthConfig a = Some cfg ->
  Config_Token cfg (ctx a) (time_Now (world st)).2 = (inl tok, w2) ->
  refreshToken (a, st)
  = (Returns None,
     (set_Client (Some (Config_Client cfg (ctx a))) (set_TokenExpiry (Expiry tok) a),
      logged (EvToken cfg) w2 st)).
Proof.
  intros Hb Hc Ht. unfold refreshToken. run.
  destruct (time_Now (world st)) as [t w1]; simpl in *. rewrite Hb, Hc; simpl.
  rewrite Ht; simpl. rewrite Hc; simpl. reflexivity.
Qed.

Lemma refreshToken_path a st :
  exists r a' st', refreshToken (a, st) = (r, (a', st')) /\ refresh_path a st r a' st'.
Proof.
  destruct (Before (time_Now (world st)).1 (TokenExpiry a)) eqn:Hb.
  - do 3 eexists. split; [apply refreshToken_fresh | apply path_fresh]; done.
  - destruct (OAuthConfig a) as [cfg|] eqn:Hc.
    + destruct (Config_Token cfg (ctx a) (time_Now (world st)).2)
        as [[tok|msg] w2] eqn:Ht; do 3 eexists.
      * split; [eapply refreshToken_success | eapply path_success]; done.
      * split; [eapply refreshToken_failure | eapply path_failure]; done.
    + do 3 eexists.
      split; [apply refreshToken_nil_config | apply path_nil_config]; done.
Qed.

Lemma refreshToken_inv a st r a' st' :
  refreshToken (a, st) = (r, (a', st')) -> refresh_path a st r a' st'.
Proof.
  intros E. destruct (refreshToken_path a st) as (r0 & a0 & st0 & E0 & P).
  rewrite E in E0. injection E0 as -> -> ->. exact P.
Qed.

Lemma refreshToken_error_inv a st e a1 st1 :
  refreshToken (a, st) = (Returns (Some e), (a1, st1)) ->
  a1 = a
  /\ Before (time_Now (world st)).1 (TokenExpiry a) = false
  /\ exists cfg msg w2,
       e = ErrToken msg /\ OAuthConfig a = Some cfg
       /\ st1 = logged (EvToken cfg) w2 st.
Proof.
  intros E. pose proof (refreshToken_inv _ _ _ _ _ E) as P.
  inversion P; subst; eauto 10.
Qed.

Lemma exchanges_app tr tr' : exchanges (tr ++ tr') = (exchanges tr + exchanges tr')%nat.
Proof. unfold exchanges. rewrite filter_app, length_app. reflexivity. Qed.

Lemma exchanges_logged cfg w st :
  exchanges (trace (logged (EvToken cfg) w st)) = S (exchanges (trace st)).
Proof. simpl. rewrite exchanges_app. simpl. unfold exchanges at 2. simpl. lia. Qed.

(** An expired session that has its configuration exchanges on the next
    [refreshToken], whatever the token endpoint answers. *)
Lemma refreshToken_expired_exchanges a st cfg :
  Before (time_Now (world st)).1 (TokenExpiry a) = false ->
  OAuthConfig a = Some cfg ->
  exchanges (trace (refreshToken (a, st)).2.2) = S (exchanges (trace st)).
Proof.
  intros Hb Hc.
  destruct (Config_Token cfg (ctx a) (time_Now (world st)).2) as [[tok|msg] w2] eqn:Ht.
  - rewrite (refreshToken_success _ _ _ _ _ Hb Hc Ht). apply exchanges_logged.
  - rewrite (refreshToken_failure _ _ _ _ _ Hb Hc Ht). apply exchanges_logged.
Qed.

(** C3: when the token exchange fails, [refreshToken] returns the error of
    the exchange and the session is what it was before the call: the token
    expiry and the client handle keep their values. The next call, at a
    clock that has not gone back, therefore makes the exchange again. *)
Theorem refreshToken_failure_keeps_session a st cfg msg w2 :
  Before (time_Now (world st)).1 (TokenExpiry a) = false ->
  OAuthConfig a = Some cfg ->
  Config_Token cfg (ctx a) (time_Now (world st)).2 = (inr msg, w2) ->
  exists a' st',
    refreshToken (a, st) = (Returns (Some (ErrToken msg)), (a', st'))
    /\ a' = a
    /\ TokenExpiry a' = TokenExpiry a
    /\ Client a' = Client a
    /\ ((time_Now (world st)).1 <= (time_Now (world st')).1 ->
        exchanges (trace (refreshToken (a', st')).2.2) = S (exchanges (trace st'))).
Proof.
  intros Hb Hc Ht. exists a, (logged (EvToken cfg) w2 st).
  split; [exact (refreshToken_failure _ _ _ _ _ Hb Hc Ht)|].
  repeat split. intros Hle.
  apply refreshToken_expired_exchanges with cfg; [|exact Hc].
  unfold Before in *. apply Z.ltb_ge. apply Z.ltb_ge in Hb. lia.
Qed.

Lemma refreshToken_times_fresh n a st :
  readings_before n (TokenExpiry a) (world st) ->
  exists w',
    refreshToken_times n (a, st) = (Returns (replicate n None), (a, unlogged w' st)).
Proof.
  revert st. induction n as [|n IH]; intros st Hr.
  - exists (world st). destruct st; reflexivity.
  - destruct Hr as [Hb Hr].
    destruct (IH (unlogged (time_Now (world st)).2 st) Hr) as [w' E].
    exists w'. simpl. unfold mbind, M_bind at 1.
    rewrite (refreshToken_fresh _ _ Hb). unfold mbind, M_bind at 1.
    rewrite E. reflexivity.
Qed.

(** C4: while every reading of the clock is before the stored expiry, any
    number of calls of [refreshToken] all return nil, make no token
    exchange (they leave no event at all) and leave the session as it
    was. *)
Theorem refreshToken_idempotent_before_expiry n a st :
  readings_before n (TokenExpiry a) (world st) ->
  exists w',
    refreshToken_times n (a, st) = (Returns (replicate n None), (a, unlogged w' st))
    /\ trace (refreshToken_times n (a, st)).2.2 = trace st
    /\ exchanges (trace (refreshToken_times n (a, st)).2.2) = exchanges (trace st).
Proof.
  intros Hr. destruct (refreshToken_times_fresh n a st Hr) as [w' E]. exists w'.
  rewrite E. auto.
Qed.

(** One exchange per expiry window: a call that exchanges successfully,
    followed by any number of calls whose clock readings are before the new
    expiry, makes one exchange in all. *)
Lemma one_exchange_per_window n a st cfg tok w2 :
  Before (time_Now (world st)).1 (TokenExpiry a) = false ->
  OAuthConfig a = Some cfg ->
  Config_Token cfg (ctx a) (time_Now (world st)).2 = (inl tok, w2) ->
  readings_before n (Expiry tok) w2 ->
  exchanges (trace (refreshToken_times (S n) (a, st)).2.2) = S (exchanges (trace st)).
Proof.
  intros Hb Hc Ht Hr. simpl. unfold mbind, M_bind at 1.
  rewrite (refreshToken_success _ _ _ _ _ Hb Hc Ht). unfold mbind, M_bind at 1.
  destruct (refreshToken_times_fresh n
              (set_Client (Some (Config_Client cfg (ctx a))) (set_TokenExpiry (Expiry tok) a))
              (logged (EvToken cfg) w2 st) Hr) as [w' E].
  rewrite E. simpl. rewrite exchanges_app. unfold exchanges at 2. simpl. lia.
Qed.

End Refresh.

Section Fetch.
Context `{Libraries}.

(** [getBody] is [fetch], then the decoding, then the deferred [Close]. *)
Lemma getBody_fetch {T} link (d : T) um s :
  getBody link d um s
  = match fetch link s with
    | (Returns (inl e), s1) => (Returns (d, Some e), s1)
    | (Returns (inr (rsp, body)), s1) =>
        (Returns ((um body d).1, ErrUnmarshal <$> (um body d).2),
         (s1.1, logged (EvClose rsp) (Body_Close rsp (world s1.2)) s1.2))
    | (Panics, s1) => (Panics, s1)
    end.
Proof.
  unfold getBody, fetch. run.
  destruct (refreshToken s) as [[r|] [a1 st1]]; simpl; [|reflexivity].
  destruct (http_NewRequest "GET" link) as [req|msg]; simpl; [|reflexivity].
  destruct (Client a1) as [c|]; simpl; [|reflexivity].
  destruct (Client_Do _ _ _) as [[rsp|msg] w]; simpl; [|reflexivity].
  destruct (ioutil_ReadAll _ _) as [[body e] w']; simpl.
  destruct (Debug a1); simpl; destruct (um body d); reflexivity.
Qed.

(** The ways through [fetch] once [refreshToken] has returned. *)
Lemma fetch_panics link s s1 :
  refreshToken s = (Panics, s1) -> fetch link s = (Panics, s1).
Proof. intros E. unfold fetch. run. rewrite E. reflexivity. Qed.

Lemma fetch_bad_link link s r s1 msg :
  refreshToken s = (Returns r, s1) ->
  http_NewRequest "GET" link = inr msg ->
  fetch link s = (Returns (inl (ErrNewRequest msg)), s1).
Proof. intros E En. unfold fetch. run. rewrite E, En. reflexivity. Qed.

Lemma fetch_no_client link s r s1 req :
  refreshToken s = (Returns r, s1) ->
  http_NewRequest "GET" link = inl req ->
  Client s1.1 = None ->
  fetch link s = (Returns (inl ErrNoClient), s1).
Proof. intros E En Ec. unfold fetch. run. rewrite E, En; simpl. rewrite Ec. reflexivity. Qed.

Lemma fetch_sends link s r s1 req c :
  refreshToken s = (Returns r, s1) ->
  http_NewRequest "GET" link = inl req ->
  Client s1.1 = Some c ->
  exists x st' evs,
    fetch link s = (Returns x, (s1.1, st'))
    /\ trace st' = trace s1.2 ++ EvDo c (Header_Set req "User-Agent" (UserAgent s1.1)) :: evs
    /\ (forall e, x = inl e -> exists msg, e = ErrDo msg).
Proof.
  intros E En Ec. unfold fetch. run. rewrite E, En; simpl. rewrite Ec; simpl.
  destruct (Client_Do _ _ _) as [[rsp|msg] w]; simpl.
  - destruct (ioutil_ReadAll _ _) as [[body e] w']; simpl.
    destruct (Debug s1.1); simpl; do 3 eexists;
      (split; [reflexivity|]); simpl; rewrite <- ?app_assoc; simpl;
      (split; [reflexivity|]); intros ? [=].
  - do 3 eexists. split; [reflexivity|]. simpl. split; [reflexivity|].
    intros ? [= <-]. eauto.
Qed.

(** The error [fetch] returns comes from [http.NewRequest], from the
    missing client or from [Client.Do], never from [refreshToken]'s call of
    [OAuthConfig.Token]; the no-client error comes only for a session that
    has no client after the refresh. *)
Lemma fetch_error link s e s1 :
  fetch link s = (Returns (inl e), s1) ->
  ((exists msg, e = ErrNewRequest msg) \/ e = ErrNoClient
   \/ (exists msg, e = ErrDo msg))
  /\ (e = ErrNoClient -> Client (refreshToken s).2.1 = None).
Proof.
  unfold fetch. run.
  destruct (refreshToken s) as [[r|] [a1 st1]]; simpl; [|discriminate].
  destruct (http_NewRequest "GET" link) as [req|msg]; simpl.
  2:{ intros [= <- <-]. split; [eauto|discriminate]. }
  destruct (Client a1) as [c|] eqn:Ec; simpl.
  2:{ intros [= <- <-]. split; [auto|auto]. }
  destruct (Client_Do _ _ _) as [[rsp|msg] w]; simpl.
  - destruct (ioutil_ReadAll _ _) as [[body e'] w']; simpl.
    destruct (Debug a1); simpl; discriminate.
  - intros [= <- <-]. split; [eauto|discriminate].
Qed.

Lemma fetch_session link s : (fetch link s).2.1 = (refreshToken s).2.1.
Proof.
  unfold fetch. run.
  destruct (refreshToken s) as [[r|] [a1 st1]]; simpl; [|reflexivity].
  destruct (http_NewRequest "GET" link) as [req|msg]; simpl; [|reflexivity].
  destruct (Client a1) as [c|]; simpl; [|reflexivity].
  destruct (Client_Do _ _ _) as [[rsp|msg] w]; simpl; [|reflexivity].
  destruct (ioutil_ReadAll _ _) as [[body e'] w']; simpl.
  destruct (Debug a1); reflexivity.
Qed.

Lemma getBody_session {T} link (d : T) um s :
  (getBody link d um s).2.1 = (refreshToken s).2.1.
Proof.
  rewrite getBody_fetch, <- (fetch_session link).
  destruct (fetch link s) as [[[e|[rsp body]]|] [a1 st1]]; reflexivity.
Qed.

Lemma getBody_error {T} link (d : T) um s d' e s1 :
  getBody link d um s = (Returns (d', Some e), s1) ->
  (forall msg, e <> ErrToken msg)
  /\ (e = ErrNoClient -> Client (refreshToken s).2.1 = None).
Proof.
  rewrite getBody_fetch.
  destruct (fetch link s) as [[[e0|[rsp body]]|] [a1 st1]] eqn:Ef; simpl.
  - intros [= <- <- <-]. destruct (fetch_error _ _ _ _ Ef) as [Hk Hc].
    split; [|exact Hc].
    intros msg ->. destruct Hk as [[? [=]]|[[=]|[? [=]]]].
  - destruct (um body d) as [d0 [m|]]; simpl; intros [= <- <- <-].
    split; [intros ?|]; discriminate.
  - discriminate.
Qed.

Lemma getBody_bad_link {T} link (d : T) um s r s1 msg :
  refreshToken s = (Returns r, s1) ->
  http_NewRequest "GET" link = inr msg ->
  getBody link d um s = (Returns (d, Some (ErrNewRequest msg)), s1).
Proof.
  intros E En. rewrite getBody_fetch, (fetch_bad_link _ _ _ _ _ E En). reflexivity.
Qed.

(** C2, amended: a failed token refresh does not end [getBody]. For a link
    that [http.NewRequest] accepts and a session without a client, the call
    returns the no-client error, which is not the error of the refresh, and
    leaves the session as it was. *)
Theorem getBody_refresh_failure_no_client {T} link (d : T) um a st e a1 st1 req :
  refreshToken (a, st) = (Returns (Some e), (a1, st1)) ->
  Client a = None ->
  http_NewRequest "GET" link = inl req ->
  getBody link d um (a, st) = (Returns (d, Some ErrNoClient), (a, st1))
  /\ ErrNoClient <> e
  /\ is_auth_error e = true
  /\ Error ErrNoClient = "OAuth Session lacks HTTP client! Error getting token".
Proof.
  intros E Ec En.
  destruct (refreshToken_error_inv _ _ _ _ _ E) as (-> & _ & cfg & msg & w2 & -> & _ & ->).
  rewrite getBody_fetch, (fetch_no_client _ _ _ _ _ E En Ec).
  repeat split. discriminate.
Qed.

(** The two ways through [getBody] once the request has gone to
    [Client.Do]. *)
Lemma getBody_do_fails {T} link (d : T) um s r s1 req c msg w :
  refreshToken s = (Returns r, s1) ->
  http_NewRequest "GET" link = inl req ->
  Client s1.1 = Some c ->
  Client_Do c (Header_Set req "User-Agent" (UserAgent s1.1)) (world s1.2) = (inr msg, w) ->
  getBody link d um s
  = (Returns (d, Some (ErrDo msg)),
     (s1.1, logged (EvDo c (Header_Set req "User-Agent" (UserAgent s1.1))) w s1.2)).
Proof.
  intros E En Ec Ed. unfold getBody. run. rewrite E, En; simpl. rewrite Ec; simpl.
  rewrite Ed. reflexivity.
Qed.

Lemma getBody_do_returns {T} link (d : T) um s r s1 req c rsp w :
  refreshToken s = (Returns r, s1) ->
  http_NewRequest "GET" link = inl req ->
  Client s1.1 = Some c ->
  Client_Do c (Header_Set req "User-Agent" (UserAgent s1.1)) (world s1.2) = (inl rsp, w) ->
  (getBody link d um s).1
  = Returns ((um (ioutil_ReadAll rsp w).1.1 d).1,
             ErrUnmarshal <$> (um (ioutil_ReadAll rsp w).1.1 d).2).
Proof.
  intros E En Ec Ed. unfold getBody. run. rewrite E, En; simpl. rewrite Ec; simpl.
  rewrite Ed. simpl.
  destruct (ioutil_ReadAll rsp w) as [[body e] w']; simpl.
  destruct (Debug s1.1); simpl; destruct (um body d); reflexivity.
Qed.

(** C10, amended: in a session that has a client, when the refresh fails
    [getBody] drops the error of the refresh and goes on with the session
    as it was, so the expiry keeps its old value, which the clock has
    passed. What it returns is what the rest of the function gives: for a
    link that does not form a request, the error of [http.NewRequest], with
    nothing sent; for a link that forms one, the next event is the round
    trip of that request through the old client, and the call returns the
    error of [Client.Do] when that fails, whatever it reports, and
    otherwise the decoding of the body it read. *)
Theorem getBody_refresh_failure_stale_client {T} link (d : T) um a st c e a1 st1 :
  Client a = Some c ->
  refreshToken (a, st) = (Returns (Some e), (a1, st1)) ->
  exists r a' st',
    getBody link d um (a, st) = (r, (a', st'))
    /\ r <> Panics
    /\ a' = a
    /\ TokenExpiry a' = TokenExpiry a
    /\ Before (time_Now (world st)).1 (TokenExpiry a') = false
    /\ Client a' = Some c
    /\ (forall msg, http_NewRequest "GET" link = inr msg ->
        r = Returns (d, Some (ErrNewRequest msg)) /\ st' = st1)
    /\ (forall req, http_NewRequest "GET" link = inl req ->
        let req' := Header_Set req "User-Agent" (UserAgent a) in
        (exists evs, trace st' = trace st1 ++ EvDo c req' :: evs)
        /\ (forall msg w, Client_Do c req' (world st1) = (inr msg, w) ->
            r = Returns (d, Some (ErrDo msg)))
        /\ (forall rsp w, Client_Do c req' (world st1) = (inl rsp, w) ->
            r = Returns ((um (ioutil_ReadAll rsp w).1.1 d).1,
                         ErrUnmarshal <$> (um (ioutil_ReadAll rsp w).1.1 d).2))).
Proof.
  intros Ec E.
  destruct (refreshToken_error_inv _ _ _ _ _ E) as (-> & Hb & cfg & msg & w2 & -> & _ & ->).
  destruct (getBody link d um (a, st)) as [r [a' st']] eqn:Eg.
  exists r, a', st'. split; [reflexivity|].
  assert (a' = a) as ->.
  { pose proof (getBody_session link d um (a, st)) as Hs.
    rewrite Eg, E in Hs. exact Hs. }
  assert (r <> Panics) as Hr.
  { intros ->. rewrite getBody_fetch in Eg.
    destruct (http_NewRequest "GET" link) as [req|m] eqn:En.
    - destruct (fetch_sends _ _ _ _ _ _ E En Ec) as (x & st2 & evs & Ef & _).
      rewrite Ef in Eg. destruct x as [?|[? ?]]; discriminate.
    - rewrite (fetch_bad_link _ _ _ _ _ E En) in Eg. discriminate. }
  split; [exact Hr|]. do 4 (split; [auto|]). split.
  { intros m En. rewrite (getBody_bad_link _ _ _ _ _ _ _ E En) in Eg.
    injection Eg as <- <-. split; reflexivity. }
  intros req En req'. split; [|split].
  - rewrite getBody_fetch in Eg.
    destruct (fetch_sends _ _ _ _ _ _ E En Ec) as (x & st2 & evs & Ef & Ht2 & _).
    rewrite Ef in Eg. simpl in *. destruct x as [e0|[rsp body]].
    + injection Eg as _ <-. eauto.
    + injection Eg as _ <-. simpl. rewrite Ht2.
      exists (evs ++ [EvClose rsp]). rewrite <- app_assoc. reflexivity.
  - intros m w Ed.
    rewrite (getBody_do_fails _ _ _ _ _ _ _ _ _ _ E En Ec Ed) in Eg.
    injection Eg as <- _. reflexivity.
  - intros rsp w Ed.
    pose proof (getBody_do_returns link d um _ _ _ _ _ _ _ E En Ec Ed) as Hg.
    rewrite Eg in Hg. exact Hg.
Qed.

End Fetch.

Section Client.
Context `{Libraries}.

Section Preserves.
Variable P : AppOnlyOAuthSession -> Prop.

Lemma preserves_ret {A} (x : A) : preserves P (mret x).
Proof. intros s Hs. exact Hs. Qed.

Lemma preserves_bind {A B} (m : M A) (k : A -> M B) :
  preserves P m -> (forall x, preserves P (k x)) -> preserves P (m ≫= k).
Proof.
  intros Hm Hk s Hs. unfold mbind, M_bind. specialize (Hm s Hs).
  destruct (m s) as [[x|] s']; simpl in *; [apply Hk|]; exact Hm.
Qed.

Lemma preserves_panic {A} : preserves P (@panic _ _ A).
Proof. intros s Hs. exact Hs. Qed.

Lemma preserves_deref {A} (p : option A) : preserves P (deref p).
Proof. destruct p; [apply preserves_ret|apply preserves_panic]. Qed.

Lemma preserves_get_session : preserves P get_session.
Proof. intros s Hs. exact Hs. Qed.

Lemma preserves_ask {A} (f : World -> A * World) : preserves P (ask f).
Proof. intros s Hs. unfold ask. destruct (f _). exact Hs. Qed.

Lemma preserves_emit e : preserves P (emit e).
Proof. intros s Hs. exact Hs. Qed.

Lemma preserves_call {A} e (f : World -> A * World) : preserves P (call e f).
Proof. apply preserves_bind; [apply preserves_emit|intros; apply preserves_ask]. Qed.

Lemma preserves_effect e f : preserves P (effect e f).
Proof. apply preserves_call. Qed.

Lemma preserves_new_cell v : preserves P (new_cell v).
Proof. intros s Hs. exact Hs. Qed.

Lemma preserves_assign l v : preserves P (assign l v).
Proof. intros s Hs. exact Hs. Qed.

Lemma preserves_range_Trophies l items acc : preserves P (range_Trophies l items acc).
Proof.
  revert acc. induction items as [|item rest IH]; intros acc; simpl.
  - apply preserves_ret.
  - apply preserves_bind; [apply preserves_assign|intros; apply IH].
Qed.

Lemma preserves_collect_trophies t : preserves P (collect_trophies t).
Proof.
  unfold collect_trophies. destruct (Trophies t); [apply preserves_ret|].
  apply preserves_bind; [apply preserves_new_cell|].
  intros; apply preserves_range_Trophies.
Qed.

End Preserves.

Lemma refreshToken_keeps_client : preserves has_client refreshToken.
Proof.
  intros [a st] Hs. destruct (refreshToken_path a st) as (r & a' & st' & E & Pth).
  rewrite E. simpl in *. inversion Pth; subst; try exact Hs. discriminate.
Qed.

Lemma getBody_keeps_client {T} link (d : T) um : preserves has_client (getBody link d um).
Proof.
  intros s Hs. rewrite getBody_session. apply refreshToken_keeps_client, Hs.
Qed.

(** Compose the lemmas above along the shape of a method. *)
Ltac preserve :=
  repeat first
    [ apply getBody_keeps_client | apply preserves_ret | apply preserves_panic | apply preserves_deref
    | apply preserves_get_session | apply preserves_call
    | apply preserves_effect | apply preserves_emit
    | apply preserves_collect_trophies
    | apply preserves_bind; [|intros]
    | match goal with
      | |- preserves _ (match ?x with _ => _ end) => destruct x
      | |- preserves _ (let '(_, _) := ?x in _) => destruct x
      end ].

Lemma invoke_keeps_client c : preserves has_client (invoke c).
Proof.
  destruct c; simpl; unfold reply, Upvoted, Frontpage, Listing, AboutRedditor,
    UserTrophies, AboutSubreddit, Comments, SubredditSubmissions;
  preserve.
Qed.

Lemma exec_keeps_client op s : has_client s.1 -> has_client (exec op s).1.
Proof.
  destruct op; simpl; [apply refreshToken_keeps_client|apply invoke_keeps_client].
Qed.

Lemma exec_all_keeps_client ops s : has_client s.1 -> has_client (exec_all ops s).1.
Proof.
  revert s. induction ops as [|op ops IH]; intros s Hs; simpl; [exact Hs|].
  apply IH, exec_keeps_client, Hs.
Qed.

(** C9: a successful token exchange leaves the session with a client, no
    operation on the session takes the client away, and so [getBody] never
    returns the no-client error in a session that has once completed an
    exchange. *)
Theorem client_stays_after_exchange a st cfg tok w2 ops :
  Before (time_Now (world st)).1 (TokenExpiry a) = false ->
  OAuthConfig a = Some cfg ->
  Config_Token cfg (ctx a) (time_Now (world st)).2 = (inl tok, w2) ->
  exists s1,
    refreshToken (a, st) = (Returns None, s1)
    /\ Client s1.1 <> None
    /\ Client (exec_all ops s1).1 <> None
    /\ forall T link (d d' : T) um,
         (getBody link d um (exec_all ops s1)).1 <> Returns (d', Some ErrNoClient).
Proof.
  intros Hb Hc Ht. eexists. split; [exact (refreshToken_success _ _ _ _ _ Hb Hc Ht)|].
  match goal with |- Client ?s.1 <> None /\ _ => set (s1 := s) end.
  assert (has_client s1.1) as H1 by (subst s1; simpl; discriminate).
  split; [exact H1|].
  pose proof (exec_all_keeps_client ops s1 H1) as H2.
  split; [exact H2|].
  intros T link d d' um Hg.
  destruct (getBody link d um (exec_all ops s1)) as [r s2] eqn:Eg. simpl in Hg. subst r.
  apply (refreshToken_keeps_client _ H2).
  exact (proj2 (getBody_error _ _ _ _ _ _ _ Eg) eq_refl).
Qed.

End Client.

Section Decoding.
Context `{Libraries}.

(** A method that returns an error returns a nil result with it. *)
Lemma error_reply_is_nil c s r e s' :
  invoke c s = (Returns (r, Some e), s') -> is_nil r = true.
Proof.
  destruct c; simpl; unfold_methods;
    repeat match goal with
           | |- context [query_Values ?p] => destruct (query_Values p)
           | |- context [deref ?h] => is_var h; destruct h
           end; run;
    try (intros [= <- <- <-]; reflexivity);
    try discriminate;
    match goal with
    | |- context [getBody ?l ?d ?um ?s] =>
        destruct (getBody l d um s) as [[[d' [e'|]]|] s2]; simpl
    end;
    try (intros [= <- <- <-]; reflexivity);
    try discriminate.
  destruct (collect_trophies d' s2) as [[l|] s3]; simpl; discriminate.
Qed.

(** C8: when the body a method has fetched does not decode into its
    envelope, the method returns the decoding error and a nil result,
    whatever the decoder has left in the target. *)
Theorem decode_failure_returns_nil c link s rsp body s1 msg :
  target_link c = Some link ->
  fetch link s = (Returns (inr (rsp, body)), s1) ->
  decode_error c body = Some msg ->
  exists r s2,
    invoke c s = (Returns (r, Some (ErrUnmarshal msg)), s2) /\ is_nil r = true.
Proof.
  intros Hl Hf Hd.
  destruct c; simpl in *; unfold_methods;
    repeat match goal with
           | H : context [query_Values ?p] |- _ => destruct (query_Values p)
           | H : context [match ?h with Some _ => _ | None => _ end] |- _ =>
               is_var h; destruct h
           end;
    try discriminate; injection Hl as <-; run;
    rewrite getBody_fetch, Hf; simpl; rewrite Hd; simpl; eauto.
Qed.

End Decoding.

Section Unwrapping.
Context `{Libraries}.

(** The loop of [Listing] and [SubredditSubmissions] fills the slots from
    [i] on with the data of the children, in order. *)
Lemma range_children_fills children :
  forall i (done : list (option Submission)),
    length done = i ->
    range_children i children (done ++ replicate (length children) None)
    = done ++ (child_Data <$> children).
Proof.
  induction children as [|c rest IH]; intros i done Hlen; simpl.
  - reflexivity.
  - rewrite insert_app_r_alt by lia.
    replace (i - length done)%nat with 0%nat by lia. simpl.
    rewrite (cons_middle (child_Data c) done), app_assoc.
    rewrite IH by (rewrite length_app; simpl; lia).
    rewrite <- app_assoc. reflexivity.
Qed.

(** One record per child, in the order of the children, each the data of
    its child; none for no children. *)
Lemma collect_submissions_children r :
  collect_submissions r = child_Data <$> Children r.
Proof.
  unfold collect_submissions.
  exact (range_children_fills (Children r) 0 [] eq_refl).
Qed.

Lemma collect_submissions_empty : collect_submissions {| Children := [] |} = [].
Proof. reflexivity. Qed.

(** The loop of [UserTrophies] appends the address of the one cell [l] for
    every item and leaves the last item in it. *)
Lemma range_Trophies_aliases l items :
  forall acc s,
    exists h,
      range_Trophies l items acc s
      = (Returns (acc ++ replicate (length items) l),
         (s.1, {| world := world s.2; trace := trace s.2; heap := h |}))
      /\ h !! l = match last items with
                  | Some item => Some item
                  | None => heap s.2 !! l
                  end.
Proof.
  induction items as [|item rest IH]; intros acc [a st].
  - exists (heap st). simpl. rewrite app_nil_r. destruct st; auto.
  - destruct (IH (acc ++ [l])
                (a, {| world := world st; trace := trace st;
                       heap := <[l := item]> (heap st) |})) as (h & E & Hh).
    exists h. split.
    + simpl. run. rewrite E. simpl. rewrite <- app_assoc. reflexivity.
    + rewrite Hh, last_cons. simpl heap. rewrite lookup_insert_eq.
      destruct (last rest); reflexivity.
Qed.

(** For a trophies array with at least one item the loop of [UserTrophies]
    returns as many pointers as there are items, all of them the same
    pointer, and what it points to is the data of the last item. *)
Lemma collect_trophies_aliases first rest s :
  exists l h,
    collect_trophies {| Trophies := first :: rest |} s
    = (Returns (replicate (S (length rest)) l),
       (s.1, {| world := world s.2; trace := trace s.2; heap := h |}))
    /\ h !! l = last (first :: rest).
Proof.
  unfold collect_trophies. simpl Trophies. cbv beta iota. run.
  set (l := fresh (dom (heap s.2))).
  destruct (range_Trophies_aliases l (first :: rest) []
              (s.1, {| world := world s.2; trace := trace s.2;
                       heap := <[l := first]> (heap s.2) |})) as (h & E & Hh).
  exists l, h. split; [exact E|].
  rewrite Hh, last_cons. destruct (last rest); reflexivity.
Qed.

End Unwrapping.

Section Links.
Context `{Libraries}.

Lemma append_empty_r (s : string) : s +:+ "" = s.
Proof.
  induction s as [|c s IH]; [reflexivity|].
  change (String c (s +:+ "") = String c s). f_equal. exact IH.
Qed.

Lemma append_assoc (a b c : string) : (a +:+ b) +:+ c = a +:+ (b +:+ c).
Proof.
  induction a as [|x a IH]; [reflexivity|].
  change (String x ((a +:+ b) +:+ c) = String x (a +:+ (b +:+ c))).
  f_equal. exact IH.
Qed.

Lemma plain_app (a b : string) : fmt.plain (a +:+ b) = fmt.plain a && fmt.plain b.
Proof.
  induction a as [|x a IH]; [reflexivity|].
  change (negb (Ascii.eqb x "%") && fmt.plain (a +:+ b)
          = negb (Ascii.eqb x "%") && fmt.plain a && fmt.plain b).
  rewrite IH. apply andb_assoc.
Qed.

(** A prefix without [%] is copied to the output. *)
Lemma doPrintf_plain_prefix pre format a :
  fmt.plain pre = true ->
  fmt.doPrintf (pre +:+ format) a = String.append pre <$> fmt.doPrintf format a.
Proof.
  induction pre as [|c pre IH]; intros Hp.
  - change ("" +:+ format) with format.
    destruct (fmt.doPrintf format a); reflexivity.
  - change (negb (Ascii.eqb c "%") && fmt.plain pre = true) in Hp.
    apply andb_prop in Hp as [Hc Hp].
    change (String c pre +:+ format) with (String c (pre +:+ format)).
    assert (fmt.doPrintf (String c (pre +:+ format)) a
            = String c <$> fmt.doPrintf (pre +:+ format) a) as ->.
    { destruct c as [[] [] [] [] [] [] [] []]; try reflexivity; discriminate. }
    rewrite (IH Hp). destruct (fmt.doPrintf format a); reflexivity.
Qed.

Lemma Sprintf_path_query base (sort enc : string) :
  fmt.plain base = true ->
  fmt.Sprintf fmt_other (base +:+ "/%s.json?%s") [sort; enc]
  = base +:+ "/" +:+ sort +:+ ".json?" +:+ enc.
Proof.
  intros Hp. unfold fmt.Sprintf. rewrite (doPrintf_plain_prefix _ _ _ Hp).
  simpl. rewrite append_empty_r. reflexivity.
Qed.

Lemma Listing_url_eq username listing sort p :
  Listing_url username listing sort p
  = "https://oauth.reddit.com/user/" +:+ username +:+ "/" +:+ listing +:+ "?"
    +:+ url.Values_Encode (with_sort sort p).
Proof.
  unfold Listing_url, fmt.Sprintf. simpl. rewrite append_empty_r. reflexivity.
Qed.

Lemma Comments_link_eq h sort p :
  Comments_link h sort p
  = "https://oauth.reddit.com/comments/" +:+ ID h +:+ "?" +:+ url.Values_Encode p.
Proof.
  unfold Comments_link, fmt.Sprintf. simpl. rewrite append_empty_r. reflexivity.
Qed.

Lemma redditURL_eq subreddit sort v :
  fmt.plain subreddit = true ->
  SubredditSubmissions_redditURL subreddit sort v
  = "https://oauth.reddit.com"
    +:+ (if decide (subreddit ≠ "") then "/r/" +:+ subreddit else "")
    +:+ "/" +:+ sort +:+ ".json?" +:+ url.Values_Encode v.
Proof.
  intros Hp. unfold SubredditSubmissions_redditURL.
  destruct (decide (subreddit ≠ "")).
  - rewrite Sprintf_path_query by (rewrite plain_app; exact Hp).
    rewrite !append_assoc. reflexivity.
  - rewrite Sprintf_path_query by reflexivity. reflexivity.
Qed.

Lemma with_sort_Get sort p : sort ≠ "" -> url.Values_Get (with_sort sort p) "sort" = sort.
Proof.
  intros Hs. unfold with_sort, url.Values_Get, url.Values_Set.
  case_decide; [|contradiction].
  rewrite lookup_insert_eq. reflexivity.
Qed.

Lemma with_sort_other sort p key :
  key ≠ "sort" -> with_sort sort p !! key = p !! key.
Proof.
  intros Hk. unfold with_sort, url.Values_Set.
  case_decide; [|reflexivity].
  rewrite lookup_insert_ne by congruence. reflexivity.
Qed.

End Links.

Section Requests.
Context `{Libraries}.

Lemma refreshToken_UserAgent s : UserAgent (refreshToken s).2.1 = UserAgent s.1.
Proof.
  destruct s as [a st]. destruct (refreshToken_path a st) as (r & a' & st' & E & Pth).
  rewrite E. inversion Pth; subst; reflexivity.
Qed.

Lemma refreshToken_trace s :
  exists evs, trace (refreshToken s).2.2 = trace s.2 ++ evs
              /\ forall c req, EvDo c req ∉ evs.
Proof.
  destruct s as [a st]. destruct (refreshToken_path a st) as (r & a' & st' & E & Pth).
  rewrite E. inversion Pth; subst; simpl.
  1,2: exists []; rewrite app_nil_r; split; [reflexivity|]; intros; apply not_elem_of_nil.
  all: eexists; split; [reflexivity|]; intros c req Hin;
    apply list_elem_of_singleton in Hin; discriminate.
Qed.

Ltac events :=
  repeat match goal with
         | H : _ ∈ _ ++ _ |- _ => apply elem_of_app in H as [H|H]
         | H : _ ∈ _ :: _ |- _ => apply elem_of_cons in H as [H|H]
         | H : _ ∈ [] |- _ => apply elem_of_nil in H; contradiction
         | H : EvDo _ _ = EvDo _ _ |- _ => injection H as -> ->
         | H : EvDo _ _ = _ |- _ => discriminate H
         end.

(** What [fetch] adds to the trace: requests for its link only. *)
Lemma fetch_trace link s :
  exists evs, trace (fetch link s).2.2 = trace s.2 ++ evs
              /\ requests_for link (UserAgent s.1) evs.
Proof.
  destruct (refreshToken_trace s) as (evs0 & Ht & Hno).
  pose proof (refreshToken_UserAgent s) as Hua.
  unfold fetch. run.
  destruct (refreshToken s) as [[r|] [a1 st1]]; simpl in *.
  2:{ exists evs0. split; [exact Ht|]. intros c req Hin. destruct (Hno _ _ Hin). }
  destruct (http_NewRequest "GET" link) as [req0|msg] eqn:En; simpl.
  2:{ exists evs0. split; [exact Ht|]. intros c req Hin. destruct (Hno _ _ Hin). }
  destruct (Client a1) as [c1|]; simpl.
  2:{ exists evs0. split; [exact Ht|]. intros c req Hin. destruct (Hno _ _ Hin). }
  destruct (Client_Do _ _ _) as [[rsp|msg] w]; simpl.
  2:{ eexists. rewrite Ht, <- app_assoc. split; [reflexivity|].
      intros c req Hin. events; [destruct (Hno _ _ Hin)|]. rewrite Hua. eauto. }
  destruct (ioutil_ReadAll _ _) as [[body e] w']; simpl.
  destruct (Debug a1); simpl; eexists; rewrite Ht, <- !app_assoc;
    (split; [reflexivity|]); intros c req Hin; events;
    try (destruct (Hno _ _ Hin)); rewrite Hua; eauto.
Qed.

Lemma requests_for_app link ua evs evs' :
  requests_for link ua evs -> requests_for link ua evs' ->
  requests_for link ua (evs ++ evs').
Proof. intros H1 H2 c req Hin. apply elem_of_app in Hin as [?|?]; eauto. Qed.

Lemma getBody_trace {T} link (d : T) um s :
  exists evs, trace (getBody link d um s).2.2 = trace s.2 ++ evs
              /\ requests_for link (UserAgent s.1) evs.
Proof.
  destruct (fetch_trace link s) as (evs & Ht & Hr). rewrite getBody_fetch.
  destruct (fetch link s) as [[[e|[rsp body]]|] [a1 st1]]; simpl in *; eauto.
  exists (evs ++ [EvClose rsp]). rewrite Ht, app_assoc. split; [reflexivity|].
  apply requests_for_app; [exact Hr|]. intros c req Hin. events.
Qed.

Lemma collect_trophies_trace t s : trace (collect_trophies t s).2.2 = trace s.2.
Proof.
  destruct t as [[|first rest]]; [reflexivity|].
  destruct (collect_trophies_aliases first rest s) as (l & h & E & _).
  rewrite E. reflexivity.
Qed.

(** Every request a method sends is the [GET] request for the target link
    of the call, with the user agent of the session. *)
Lemma invoke_requests c s :
  exists evs,
    trace (invoke c s).2.2 = trace s.2 ++ evs
    /\ forall cl req, EvDo cl req ∈ evs ->
         exists link req0,
           target_link c = Some link
           /\ http_NewRequest "GET" link = inl req0
           /\ req = Header_Set req0 "User-Agent" (UserAgent s.1).
Proof.
  assert (forall link, target_link c = Some link ->
          forall evs, requests_for link (UserAgent s.1) evs ->
          forall cl req, EvDo cl req ∈ evs ->
            exists link req0,
              target_link c = Some link
              /\ http_NewRequest "GET" link = inl req0
              /\ req = Header_Set req0 "User-Agent" (UserAgent s.1)) as Hfor.
  { intros link Hl evs Hr cl req Hin. destruct (Hr _ _ Hin) as (req0 & ? & ?). eauto. }
  assert (exists evs : list Event, trace s.2 = trace s.2 ++ evs
            /\ forall cl req, EvDo cl req ∈ evs ->
                 exists link req0,
                   target_link c = Some link
                   /\ http_NewRequest "GET" link = inl req0
                   /\ req = Header_Set req0 "User-Agent" (UserAgent s.1)) as Hnone.
  { exists []. rewrite app_nil_r. split; [reflexivity|]. intros ? ? Hin. events. }
  destruct c; simpl in *; unfold_methods;
    repeat match goal with
           | H : context [query_Values ?p] |- _ => destruct (query_Values p)
           | H : context [match ?h with Some _ => _ | None => _ end] |- _ =>
               is_var h; destruct h
           end;
    try exact Hnone; run;
    match goal with
    | |- context [getBody ?l ?d ?um s] =>
        destruct (getBody_trace l d um s) as (evs & Ht & Hr);
        destruct (getBody l d um s) as [[[d' [e'|]]|] s2]; simpl in *
    end;
    try (exists evs; split; [exact Ht|]; eapply Hfor; [reflexivity|exact Hr]).
  pose proof (collect_trophies_trace d' s2) as Hc.
  destruct (collect_trophies d' s2) as [[l|] s3]; simpl in *;
    (exists evs; split; [congruence | eapply Hfor; [reflexivity|exact Hr]]).
Qed.

End Requests.

Section Endpoints.
Context `{Libraries}.

(** C7: the constructor always returns a session and a nil error, and
    leaves the world and the trace as they were (it makes no call to the
    outside). The user agent of the session is the one given, or the
    default, which is not empty, when the one given is empty. *)
Theorem NewAppOnlyOAuthSession_never_fails clientID clientSecret useragent debug st :
  exists s,
    NewAppOnlyOAuthSession clientID clientSecret useragent debug st = ((s, None), st)
    /\ UserAgent s = (if decide (useragent = "") then default_UserAgent else useragent)
    /\ default_UserAgent <> ""
    /\ ClientID s = clientID
    /\ ClientSecret s = clientSecret
    /\ OAuthConfig s
       = Some {| cfg_ClientID := clientID; cfg_ClientSecret := clientSecret;
                 cfg_TokenURL := "https://www.reddit.com/api/v1/access_token" |}
    /\ Client s = None
    /\ TokenExpiry s = 0.
Proof.
  unfold NewAppOnlyOAuthSession. eexists. split; [reflexivity|]. simpl.
  assert (default_UserAgent <> "") as Hd by discriminate.
  destruct (decide (useragent ≠ "")) as [Hne|He];
    destruct (decide (useragent = "")) as [Hu|Hu]; simpl;
    try contradiction; auto 10.
Qed.

(** C6: [Frontpage] is [SubredditSubmissions] with the empty subreddit
    name, and with the empty name the method fetches the link made of the
    host, the sort key and the serialized options, with no [/r/] segment.
    When the options do not serialize, [Frontpage] returns that error and
    does nothing. Otherwise it runs [getBody] on that link: it returns the
    data of the children that [getBody] decoded, or the error of [getBody]
    with a nil slice, in the state [getBody] left, and the requests of that
    run, all for that link, are the only ones it sends. *)
Theorem Frontpage_is_SubredditSubmissions sort params :
  Frontpage sort params = SubredditSubmissions "" sort params
  /\ target_link (CallFrontpage sort params)
     = target_link (CallSubredditSubmissions "" sort params)
  /\ (forall v, SubredditSubmissions_redditURL "" sort v
                = "https://oauth.reddit.com/" +:+ sort +:+ ".json?"
                  +:+ url.Values_Encode v)
  /\ forall s,
       match query_Values params with
       | inr msg =>
           Frontpage sort params s = (Returns ([], Some (ErrQueryValues msg)), s)
       | inl v =>
           let link := "https://oauth.reddit.com/" +:+ sort +:+ ".json?"
                       +:+ url.Values_Encode v in
           let g := getBody link {| Children := [] |} json_Unmarshal_resp s in
           Frontpage sort params s
           = (match g.1 with
              | Returns (r, None) => Returns (child_Data <$> Children r, None)
              | Returns (_, Some err) => Returns ([], Some err)
              | Panics => Panics
              end, g.2)
           /\ exists evs,
                trace (Frontpage sort params s).2.2 = trace s.2 ++ evs
                /\ requests_for link (UserAgent s.1) evs
       end.
Proof.
  split; [reflexivity|]. split; [reflexivity|].
  assert (forall v, SubredditSubmissions_redditURL "" sort v
                    = "https://oauth.reddit.com/" +:+ sort +:+ ".json?"
                      +:+ url.Values_Encode v) as Hl.
  { intros v. rewrite redditURL_eq by reflexivity. reflexivity. }
  split; [exact Hl|].
  intros s. destruct (query_Values params) as [v|msg] eqn:Hq.
  - cbv zeta. rewrite <- Hl.
    destruct (getBody_trace (SubredditSubmissions_redditURL "" sort v)
                {| Children := [] |} json_Unmarshal_resp s) as (evs & Ht & Hr).
    assert (Frontpage sort params s
            = (match (getBody (SubredditSubmissions_redditURL "" sort v)
                        {| Children := [] |} json_Unmarshal_resp s).1 with
               | Returns (r, None) => Returns (child_Data <$> Children r, None)
               | Returns (_, Some err) => Returns ([], Some err)
               | Panics => Panics
               end,
               (getBody (SubredditSubmissions_redditURL "" sort v)
                  {| Children := [] |} json_Unmarshal_resp s).2)) as Hf.
    { unfold Frontpage, SubredditSubmissions. rewrite Hq. run.
      destruct (getBody _ _ _ s) as [[[r [err|]]|] s1]; simpl; try reflexivity.
      rewrite collect_submissions_children. reflexivity. }
    split; [exact Hf|].
    exists evs. rewrite Hf. split; [exact Ht|exact Hr].
  - unfold Frontpage, SubredditSubmissions. rewrite Hq. reflexivity.
Qed.

(** The method [Comments] takes a sort key that its body does not use. *)
Lemma Comments_unfold h sort params p s :
  query_Values params = inl p ->
  Comments (Some h) sort params s
  = (match (getBody (Comments_link h sort p) None json_Unmarshal_any s).1 with
     | Returns (c, None) => Returns (buildComments c, None)
     | Returns (_, Some err) => Returns ([], Some err)
     | Panics => Panics
     end,
     (getBody (Comments_link h sort p) None json_Unmarshal_any s).2).
Proof.
  intros Hq. unfold Comments. rewrite Hq. run.
  destruct (getBody _ _ _ s) as [[[c [err|]]|] s1]; reflexivity.
Qed.

(** C1 on [Comments]: the method takes a sort key and never uses it. With
    [p] the serialized options, the link it fetches is the one of the
    submission with the query string that encodes [p] alone, whatever the
    sort key: the call is the same computation as the call with the empty
    sort key, it runs [getBody] on that link, and every request it sends is
    for that link. [Listing], with the same sort key and options, fetches a
    link whose query string encodes [p] with the key [sort] set. *)
Theorem Comments_ignores_sort h sort params p :
  query_Values params = inl p ->
  target_link (CallComments (Some h) sort params)
  = Some ("https://oauth.reddit.com/comments/" +:+ ID h +:+ "?"
          +:+ url.Values_Encode p)
  /\ Comments (Some h) sort params = Comments (Some h) "" params
  /\ (forall s,
        let link := "https://oauth.reddit.com/comments/" +:+ ID h +:+ "?"
                    +:+ url.Values_Encode p in
        let g := getBody link None json_Unmarshal_any s in
        Comments (Some h) sort params s
        = (match g.1 with
           | Returns (c, None) => Returns (buildComments c, None)
           | Returns (_, Some err) => Returns ([], Some err)
           | Panics => Panics
           end, g.2)
        /\ exists evs,
             trace (Comments (Some h) sort params s).2.2 = trace s.2 ++ evs
             /\ requests_for link (UserAgent s.1) evs)
  /\ (forall u l,
        target_link (CallListing u l sort params)
        = Some ("https://oauth.reddit.com/user/" +:+ u +:+ "/" +:+ l +:+ "?"
                +:+ url.Values_Encode (with_sort sort p)))
  /\ (sort <> "" -> url.Values_Get (with_sort sort p) "sort" = sort).
Proof.
  intros Hq.
  split. { simpl. rewrite Hq, Comments_link_eq. reflexivity. }
  split. { reflexivity. }
  split.
  { intros s. cbv zeta. rewrite <- (Comments_link_eq h sort p).
    pose proof (Comments_unfold h sort params p s Hq) as Hf.
    split; [exact Hf|].
    destruct (getBody_trace (Comments_link h sort p) None json_Unmarshal_any s)
      as (evs & Ht & Hr).
    exists evs. rewrite Hf. split; [exact Ht|exact Hr]. }
  split. { intros u l. simpl. rewrite Hq, Listing_url_eq. reflexivity. }
  intros Hs. apply with_sort_Get. exact Hs.
Qed.

(** Where the sort key goes in the link of each method. With [p] the
    serialized options, [Listing] and [Upvoted]
    fetch a link whose query string encodes [p] with the key [sort] set to
    the sort key when that is not empty; [SubredditSubmissions] (for a
    subreddit name without [%], since the name is part of the format) and
    [Frontpage] fetch a link whose query string encodes [p] and whose path
    ends in the sort key; [Comments] without a sort key fetches a link
    whose query string encodes [p]. Every request a method sends is the
    request for that link. *)
Theorem sort_key_in_link params p :
  query_Values params = inl p ->
  (forall u l sort,
     target_link (CallListing u l sort params)
     = Some ("https://oauth.reddit.com/user/" +:+ u +:+ "/" +:+ l +:+ "?"
             +:+ url.Values_Encode (with_sort sort p)))
  /\ (forall u sort,
        target_link (CallUpvoted u sort params)
        = Some ("https://oauth.reddit.com/user/" +:+ u +:+ "/upvoted?"
                +:+ url.Values_Encode (with_sort sort p)))
  /\ (forall sort,
        sort <> "" ->
        url.Values_Get (with_sort sort p) "sort" = sort
        /\ forall key, key <> "sort" -> with_sort sort p !! key = p !! key)
  /\ with_sort "" p = p
  /\ (forall r sort,
        fmt.plain r = true ->
        target_link (CallSubredditSubmissions r sort params)
        = Some ("https://oauth.reddit.com"
                +:+ (if decide (r ≠ "") then "/r/" +:+ r else "")
                +:+ "/" +:+ sort +:+ ".json?" +:+ url.Values_Encode p))
  /\ (forall sort,
        target_link (CallFrontpage sort params)
        = Some ("https://oauth.reddit.com/" +:+ sort +:+ ".json?"
                +:+ url.Values_Encode p))
  /\ (forall h,
        target_link (CallComments (Some h) "" params)
        = Some ("https://oauth.reddit.com/comments/" +:+ ID h +:+ "?"
                +:+ url.Values_Encode p))
  /\ (forall c s cl req,
        EvDo cl req ∈ trace (invoke c s).2.2 ->
        EvDo cl req ∈ trace s.2
        \/ exists link req0,
             target_link c = Some link
             /\ http_NewRequest "GET" link = inl req0
             /\ req = Header_Set req0 "User-Agent" (UserAgent s.1)).
Proof.
  intros Hq.
  split. { intros u l sort. simpl. rewrite Hq, Listing_url_eq. reflexivity. }
  split. { intros u sort. simpl. rewrite Hq, Listing_url_eq. reflexivity. }
  split. { intros sort Hs.
           split; [apply with_sort_Get|intros; apply with_sort_other]; assumption. }
  split. { reflexivity. }
  split. { intros r sort Hp. simpl. rewrite Hq, redditURL_eq by assumption.
           reflexivity. }
  split. { intros sort. simpl. rewrite Hq, redditURL_eq by reflexivity.
           reflexivity. }
  split. { intros h. simpl. rewrite Hq, Comments_link_eq. reflexivity. }
  intros c s cl req Hin. destruct (invoke_requests c s) as (evs & Ht & Hr).
  rewrite Ht in Hin. apply elem_of_app in Hin as [Hin|Hin]; [left|right]; eauto.
Qed.

(** What [Listing] and [SubredditSubmissions] return from a decoded
    envelope: the data of the children, one record each, in order. *)
Lemma Listing_returns_children u l sort params p s r s1 :
  query_Values params = inl p ->
  getBody (Listing_url u l sort p) {| Children := [] |} json_Unmarshal_resp s
  = (Returns (r, None), s1) ->
  Listing u l sort params s = (Returns (child_Data <$> Children r, None), s1).
Proof.
  intros Hq Hg. unfold Listing. rewrite Hq. run. rewrite Hg. simpl.
  rewrite collect_submissions_children. reflexivity.
Qed.

Lemma SubredditSubmissions_returns_children sub sort params v s r s1 :
  query_Values params = inl v ->
  getBody (SubredditSubmissions_redditURL sub sort v) {| Children := [] |}
    json_Unmarshal_resp s
  = (Returns (r, None), s1) ->
  SubredditSubmissions sub sort params s
  = (Returns (child_Data <$> Children r, None), s1).
Proof.
  intros Hq Hg. unfold SubredditSubmissions. rewrite Hq. run. rewrite Hg. simpl.
  rewrite collect_submissions_children. reflexivity.
Qed.

Lemma UserTrophies_empty user s t s1 :
  getBody (UserTrophies_url user) {| Trophies := [] |} json_Unmarshal_trophyData s
  = (Returns (t, None), s1) ->
  Trophies t = [] ->
  UserTrophies user s = (Returns ([], None), s1).
Proof.
  intros Hg Ht. unfold UserTrophies. run. rewrite Hg. simpl.
  unfold collect_trophies. rewrite Ht. destruct s1; reflexivity.
Qed.

(** C5 on [UserTrophies]: from a decoded envelope with the trophies
    [first :: rest] the method returns one pointer per trophy, but every one
    of them is the same pointer, and it points to the data of the last
    trophy. Read through the result, every record is the last one; when the
    first trophy differs from the last, the records are not the data of the
    children. *)
Theorem UserTrophies_pointers_alias user s t s1 first rest :
  getBody (UserTrophies_url user) {| Trophies := [] |} json_Unmarshal_trophyData s
  = (Returns (t, None), s1) ->
  Trophies t = first :: rest ->
  exists l st',
    UserTrophies user s
    = (Returns (replicate (S (length rest)) l, None), (s1.1, st'))
    /\ load st' <$> replicate (S (length rest)) l
       = replicate (S (length rest)) (trophy_Data <$> last (first :: rest))
    /\ (Some (trophy_Data first) <> (trophy_Data <$> last (first :: rest)) ->
        load st' <$> replicate (S (length rest)) l
        <> (fun item => Some (trophy_Data item)) <$> Trophies t).
Proof.
  intros Hg Ht. unfold UserTrophies. run. rewrite Hg. simpl.
  destruct t as [items]. simpl in Ht. subst items.
  destruct (collect_trophies_aliases first rest s1) as (l & h & E & Hh).
  rewrite E. simpl. do 2 eexists. split; [reflexivity|].
  assert (load {| world := world s1.2; trace := trace s1.2; heap := h |}
            <$> replicate (S (length rest)) l
          = replicate (S (length rest)) (trophy_Data <$> last (first :: rest)))
    as Hload.
  { rewrite fmap_replicate. unfold load. simpl heap. rewrite Hh. reflexivity. }
  split; [exact Hload|].
  intros Hne Heq. apply Hne.
  pose proof (f_equal head Hload) as H1. pose proof (f_equal head Heq) as H2.
  change (replicate (S (length rest)) l) with (l :: replicate (length rest) l) in *.
  change (replicate (S (length rest)) (trophy_Data <$> last (first :: rest)))
    with ((trophy_Data <$> last (first :: rest))
          :: replicate (length rest) (trophy_Data <$> last (first :: rest))) in *.
  rewrite fmap_cons in H1. cbn [head] in H1, H2. congruence.
Qed.

End Endpoints.

(** * The methods at work in the scripted world *)

Section Scenarios.
#[local] Existing Instance Demo.package.
#[local] Existing Instance Demo.libraries.

Example Encode_sorted :
  url.Values_Encode
    (url.Values_Set (<["limit" := ["2"]]> (<["after" := ["t3 x"]]> ∅)) "sort" "top")
  = "after=t3+x&limit=2&sort=top".
Proof. vm_compute. reflexivity. Qed.

Example QueryEscape_bytes : url.QueryEscape "a/b c~%" = "a%2Fb+c~%25".
Proof. vm_compute. reflexivity. Qed.

(** The name of the subreddit is part of the format string. *)
Example Sprintf_subreddit_verb :
  SubredditSubmissions_redditURL "%s" "hot" (<["limit" := ["2"]]> ∅)
  = "https://oauth.reddit.com/r/hot/limit=2.json?%!s(MISSING)".
Proof. vm_compute. reflexivity. Qed.

(** End to end: the front page, sorted by [hot], two submissions. *)
Example Frontpage_hot :
  let s := (Demo.fresh_session, Demo.start (Demo.granting 5 [inl "ab"])) in
  (Frontpage "hot" Demo.limit2 s).1 = Returns ([Some "a"; Some "b"], None)
  /\ requested (trace (Frontpage "hot" Demo.limit2 s).2.2)
     = ["https://oauth.reddit.com/hot.json?limit=2"].
Proof. vm_compute. split; reflexivity. Qed.

(** [Comments] with the sort key [top]: the link it fetches has no sort
    key in its query string; it is the link for the options alone, not the
    one with the key [sort] set, which [Listing] makes. *)
Example Comments_link_drops_sort :
  let p : url.Values := <["limit" := ["2"]]> ∅ in
  let s := (Demo.established, Demo.start (Demo.granting 5 [inl "ab"])) in
  query_Values Demo.limit2 = inl p
  /\ "top" <> ""
  /\ target_link (CallComments (Some "abc123") "top" Demo.limit2)
     = Some "https://oauth.reddit.com/comments/abc123?limit=2"
  /\ requested (trace (Comments (Some "abc123") "top" Demo.limit2 s).2.2)
     = ["https://oauth.reddit.com/comments/abc123?limit=2"]
  /\ url.Values_Encode (with_sort "top" p) = "limit=2&sort=top"
  /\ target_link (CallComments (Some "abc123") "top" Demo.limit2)
     <> Some ("https://oauth.reddit.com/comments/" +:+ "abc123" +:+ "?"
              +:+ url.Values_Encode (with_sort "top" p))
  /\ target_link (CallListing "bob" "saved" "top" Demo.limit2)
     = Some "https://oauth.reddit.com/user/bob/saved?limit=2&sort=top".
Proof. vm_compute. repeat split; discriminate. Qed.

(** The failing input of C1: [Comments] on the submission [abc123] with
    the sort key [top] and the option [limit=2]. *)
Lemma Comments_ignores_sort_witness :
  query_Values Demo.limit2 = inl (<["limit" := ["2"]]> ∅)
  /\ target_link (CallComments (Some "abc123") "top" Demo.limit2)
     = Some "https://oauth.reddit.com/comments/abc123?limit=2"
  /\ Comments (Some "abc123") "top" Demo.limit2
     = Comments (Some "abc123") "" Demo.limit2
  /\ target_link (CallListing "bob" "saved" "top" Demo.limit2)
     = Some "https://oauth.reddit.com/user/bob/saved?limit=2&sort=top".
Proof.
  split; [reflexivity|].
  pose proof (Comments_ignores_sort "abc123" "top" Demo.limit2
                (<["limit" := ["2"]]> ∅) eq_refl)
    as (Hlink & Hsame & _ & Hlisting & _).
  split; [exact Hlink|]. split; [exact Hsame|].
  exact (Hlisting "bob" "saved").
Defined.

Lemma sort_key_in_link_witness :
  query_Values Demo.limit2 = inl (<["limit" := ["2"]]> ∅)
  /\ fmt.plain "golang" = true
  /\ target_link (CallSubredditSubmissions "golang" "new" Demo.limit2)
     = Some "https://oauth.reddit.com/r/golang/new.json?limit=2"
  /\ target_link (CallUpvoted "bob" "top" Demo.limit2)
     = Some "https://oauth.reddit.com/user/bob/upvoted?limit=2&sort=top".
Proof.
  split; [reflexivity|]. split; [reflexivity|].
  pose proof (sort_key_in_link Demo.limit2 (<["limit" := ["2"]]> ∅) eq_refl)
    as (_ & Hup & _ & _ & Hsub & _).
  split.
  - exact (Hsub "golang" "new" eq_refl).
  - exact (Hup "bob" "top").
Defined.

(** C2 fails for a link that does not parse: in a new session whose token
    exchange is turned down, [getBody] on the link of [AboutRedditor "%zz"]
    returns the error of [http.NewRequest], not the no-client error. *)
Lemma getBody_bad_link_before_no_client :
  let s := (Demo.fresh_session, Demo.start (Demo.rejecting 5 [])) in
  let link := "https://oauth.reddit.com/user/%zz/about" in
  let d := Demo.no_redditor in
  (refreshToken s).1 = Returns (Some (ErrToken "401 Unauthorized"))
  /\ Client s.1 = None
  /\ AboutRedditor_link "%zz" = link
  /\ (getBody link d json_Unmarshal_redditor s).1
     = Returns (d, Some (ErrNewRequest "invalid URL escape"))
  /\ (getBody link d json_Unmarshal_redditor s).1 <> Returns (d, Some ErrNoClient)
  /\ (AboutRedditor "%zz" s).1
     = Returns (None, Some (ErrNewRequest "invalid URL escape")).
Proof. vm_compute. repeat split; discriminate. Qed.

Lemma getBody_refresh_failure_no_client_witness :
  let s := (Demo.fresh_session, Demo.start (Demo.rejecting 5 [])) in
  let link := "https://oauth.reddit.com/user/bob/about" in
  let d := Demo.no_redditor in
  getBody link d json_Unmarshal_redditor s
  = (Returns (d, Some ErrNoClient), (Demo.fresh_session, (refreshToken s).2.2))
  /\ ErrNoClient <> ErrToken "401 Unauthorized".
Proof.
  cbv zeta.
  pose proof (getBody_refresh_failure_no_client
                "https://oauth.reddit.com/user/bob/about"
                Demo.no_redditor json_Unmarshal_redditor
                Demo.fresh_session (Demo.start (Demo.rejecting 5 []))
                (ErrToken "401 Unauthorized") Demo.fresh_session
                (refreshToken (Demo.fresh_session,
                               Demo.start (Demo.rejecting 5 []))).2.2
                {| Method := "GET";
                   req_URL := "https://oauth.reddit.com/user/bob/about";
                   Header := ∅ |}
                eq_refl eq_refl eq_refl) as (Hg & Hne & _).
  split; [exact Hg|exact Hne].
Defined.

Lemma refreshToken_failure_keeps_session_witness :
  let a := Demo.established in
  let st := Demo.start (Demo.rejecting 200 []) in
  exists st',
    refreshToken (a, st) = (Returns (Some (ErrToken "401 Unauthorized")), (a, st'))
    /\ TokenExpiry a = 100
    /\ Client a = Some Demo.cfg.
Proof.
  cbv zeta.
  destruct (refreshToken_failure_keeps_session
              Demo.established (Demo.start (Demo.rejecting 200 []))
              Demo.cfg "401 Unauthorized"
              {| Demo.clock := 201; Demo.token_script := [];
                 Demo.http_script := [] |}
              eq_refl eq_refl eq_refl) as (a' & st' & E & -> & _).
  exists st'. split; [exact E|]. split; reflexivity.
Defined.

Lemma refreshToken_idempotent_before_expiry_witness :
  let st := Demo.start (Demo.granting 5 []) in
  exists w',
    refreshToken_times 3 (Demo.established, st)
    = (Returns [None; None; None], (Demo.established, unlogged w' st))
    /\ trace (refreshToken_times 3 (Demo.established, st)).2.2 = []
    /\ exchanges (trace (refreshToken_times 3 (Demo.established, st)).2.2) = 0%nat.
Proof.
  cbv zeta.
  apply (refreshToken_idempotent_before_expiry 3 Demo.established
           (Demo.start (Demo.granting 5 []))).
  simpl. repeat split; reflexivity.
Defined.

(** The failing input of C5: two different trophies. The method returns the
    same pointer twice, and both records read the second trophy. *)
Lemma UserTrophies_pointers_alias_witness :
  let s := (Demo.established, Demo.start (Demo.granting 5 [inl "ab"])) in
  exists l st',
    UserTrophies "bob" s = (Returns ([l; l], None), (Demo.established, st'))
    /\ load st' <$> [l; l] = [Some "b"; Some "b"]
    /\ load st' <$> [l; l] <> [Some "a"; Some "b"].
Proof.
  cbv zeta.
  set (s := (Demo.established, Demo.start (Demo.granting 5 [inl "ab"]))).
  set (g := getBody (UserTrophies_url "bob") {| Trophies := [] |}
              json_Unmarshal_trophyData s).
  assert (g.1 = Returns ({| Trophies := [Demo.trophy "a"; Demo.trophy "b"] |}, None))
    as Hout by (vm_compute; reflexivity).
  assert (g.2.1 = Demo.established) as Hses by (vm_compute; reflexivity).
  destruct (UserTrophies_pointers_alias "bob" s
              {| Trophies := [Demo.trophy "a"; Demo.trophy "b"] |} g.2
              (Demo.trophy "a") [Demo.trophy "b"])
    as (l & st' & E & Hl & Hdiff).
  - rewrite <- Hout. apply surjective_pairing.
  - reflexivity.
  - exists l, st'. rewrite <- Hses. split; [exact E|]. split; [exact Hl|].
    apply Hdiff. discriminate.
Defined.

Example UserTrophies_two_trophies :
  let s := (Demo.established, Demo.start (Demo.granting 5 [inl "ab"])) in
  (json_Unmarshal_trophyData "ab" {| Trophies := [] |}).1
  = {| Trophies := [Demo.trophy "a"; Demo.trophy "b"] |}
  /\ (UserTrophies "bob" s).1 = Returns ([0%nat; 0%nat], None)
  /\ load (UserTrophies "bob" s).2.2 <$> [0%nat; 0%nat] = [Some "b"; Some "b"].
Proof. vm_compute. repeat split; reflexivity. Qed.

Lemma decode_failure_returns_nil_witness :
  let s := (Demo.established, Demo.start (Demo.granting 5 [inl "a!"])) in
  (json_Unmarshal_resp "a!" {| Children := [] |}).1 = {| Children := [Demo.kid "a"] |}
  /\ exists r s2,
       invoke (CallListing "bob" "saved" "top" Demo.limit2) s
       = (Returns (r, Some (ErrUnmarshal "invalid character '!'")), s2)
       /\ is_nil r = true.
Proof.
  cbv zeta. split; [reflexivity|].
  set (s := (Demo.established, Demo.start (Demo.granting 5 [inl "a!"]))).
  set (link := "https://oauth.reddit.com/user/bob/saved?limit=2&sort=top").
  assert ((fetch link s).1 = Returns (inr ("a!", "a!"))) as Hout
    by (vm_compute; reflexivity).
  apply (decode_failure_returns_nil
           (CallListing "bob" "saved" "top" Demo.limit2) link s
           "a!" "a!" (fetch link s).2 "invalid character '!'").
  - vm_compute. reflexivity.
  - revert Hout. generalize (fetch link s). intros [o s1] Hout.
    simpl in Hout. rewrite Hout. reflexivity.
  - reflexivity.
Defined.

Example Listing_undecodable_body :
  let s := (Demo.established, Demo.start (Demo.granting 5 [inl "a!"])) in
  (Listing "bob" "saved" "top" Demo.limit2 s).1
  = Returns ([], Some (ErrUnmarshal "invalid character '!'")).
Proof. vm_compute. reflexivity. Qed.

Lemma client_stays_after_exchange_witness :
  let st := Demo.start (Demo.granting 5 [inr "connection reset"]) in
  let ops := [OpCall (CallAboutRedditor "bob"); OpRefresh;
              OpCall (CallFrontpage "hot" Demo.limit2)] in
  exists s1,
    refreshToken (Demo.fresh_session, st) = (Returns None, s1)
    /\ Client (exec_all ops s1).1 <> None.
Proof.
  cbv zeta.
  destruct (client_stays_after_exchange
              Demo.fresh_session
              (Demo.start (Demo.granting 5 [inr "connection reset"]))
              Demo.cfg {| AccessToken := "token"; Expiry := 100 |}
              {| Demo.clock := 6; Demo.token_script := [];
                 Demo.http_script := [inr "connection reset"] |}
              [OpCall (CallAboutRedditor "bob"); OpRefresh;
               OpCall (CallFrontpage "hot" Demo.limit2)]
              eq_refl eq_refl eq_refl) as (s1 & E & _ & Hc & _).
  exists s1. split; [exact E|exact Hc].
Defined.

(** C10 fails in two ways, in a session that has a client and whose
    refresh is turned down. On a link that parses, the round trip through
    the old client fails with the failure of the client's own token
    exchange, and [getBody] returns it: an auth error. On a link that does
    not parse, [getBody] returns the error of [http.NewRequest] without
    sending any request. *)
Lemma getBody_stale_client_auth_error :
  let denied := "Get https://oauth.reddit.com/r/golang/about: oauth2: cannot fetch token: 401 Unauthorized" in
  let s := (Demo.established, Demo.start (Demo.rejecting 200 [inr denied])) in
  let link := "https://oauth.reddit.com/r/golang/about" in
  let bad := "https://oauth.reddit.com/r/%zz/about" in
  let d := Demo.no_subreddit in
  Client s.1 = Some Demo.cfg
  /\ (refreshToken s).1 = Returns (Some (ErrToken "401 Unauthorized"))
  /\ AboutSubreddit_link "golang" = link
  /\ (getBody link d json_Unmarshal_subreddit s).1
     = Returns (d, Some (ErrDo denied))
  /\ is_auth_error (ErrDo denied) = true
  /\ (AboutSubreddit "golang" s).1 = Returns (None, Some (ErrDo denied))
  /\ requested (trace (getBody link d json_Unmarshal_subreddit s).2.2) = [link]
  /\ AboutSubreddit_link "%zz" = bad
  /\ (getBody bad d json_Unmarshal_subreddit s).1
     = Returns (d, Some (ErrNewRequest "invalid URL escape"))
  /\ requested (trace (getBody bad d json_Unmarshal_subreddit s).2.2) = []
  /\ length (trace (getBody bad d json_Unmarshal_subreddit s).2.2) = 1%nat.
Proof. vm_compute. repeat split; reflexivity. Qed.

Lemma getBody_refresh_failure_stale_client_witness :
  let s := (Demo.established, Demo.start (Demo.rejecting 200 [inr "connection reset"])) in
  let link := "https://oauth.reddit.com/r/golang/about" in
  exists st',
    getBody link Demo.no_subreddit json_Unmarshal_subreddit s
    = (Returns (Demo.no_subreddit, Some (ErrDo "connection reset")),
       (Demo.established, st'))
    /\ TokenExpiry Demo.established = 100.
Proof.
  cbv zeta.
  destruct (getBody_refresh_failure_stale_client
              "https://oauth.reddit.com/r/golang/about"
              Demo.no_subreddit json_Unmarshal_subreddit
              Demo.established
              (Demo.start (Demo.rejecting 200 [inr "connection reset"]))
              Demo.cfg (ErrToken "401 Unauthorized") Demo.established
              (refreshToken (Demo.established,
                             Demo.start (Demo.rejecting 200 [inr "connection reset"]))).2.2
              eq_refl eq_refl)
    as (r & a' & st' & E & _ & -> & _ & _ & _ & _ & Hsend).
  destruct (Hsend {| Method := "GET";
                     req_URL := "https://oauth.reddit.com/r/golang/about";
                     Header := ∅ |} eq_refl) as (_ & Hfail & _).
  rewrite (Hfail "connection reset"
             {| Demo.clock := 201; Demo.token_script := [];
                Demo.http_script := [] |} eq_refl) in E.
  exists st'. split; [exact E|reflexivity].
Defined.

(** The same call on a link that parses: the failed exchange, then the
    request, sent although the token has expired. *)
Example getBody_stale_client_request :
  let s := (Demo.established, Demo.start (Demo.rejecting 200 [inl "ab"])) in
  let link := "https://oauth.reddit.com/r/golang/about" in
  let run := getBody link Demo.no_subreddit json_Unmarshal_subreddit s in
  run.1 = Returns ({| subreddit_Data := "ab" |}, None)
  /\ requested (trace run.2.2) = [link]
  /\ exchanges (trace run.2.2) = 1%nat
  /\ TokenExpiry run.2.1 = 100.
Proof. vm_compute. repeat split; reflexivity. Qed.

End Scenarios.

(** * The methods in the world whose codec knows the empty object *)

Section Scenarios_lenient.
#[local] Existing Instance Demo.package.
#[local] Existing Instance Lenient.libraries.

(** C8 fails for a body that is valid JSON and has none of the fields of
    the envelope: the empty object. The decoding reports no error, and
    [AboutRedditor] returns a nil error with a record, the zero one;
    [Listing] returns a nil error with no submissions. *)
Lemma empty_object_decodes_without_error :
  let s := (Lenient.established, Lenient.start (Demo.granting 5 [inl "{}"; inl "{}"])) in
  let link := "https://oauth.reddit.com/user/bob/about" in
  target_link Lenient.about_bob = Some link
  /\ (fetch link s).1 = Returns (inr ("{}", "{}"))
  /\ decode_error Lenient.about_bob "{}" = None
  /\ (invoke Lenient.about_bob s).1
     = Returns (ARedditor (Some Redditor_zero), None)
  /\ is_nil (ARedditor (Some Redditor_zero)) = false
  /\ (AboutRedditor "bob" s).1 = Returns (Some Redditor_zero, None)
  /\ (Listing "bob" "saved" "top" Demo.limit2 s).1 = Returns ([], None).
Proof. vm_compute. repeat split; reflexivity. Qed.

End Scenarios_lenient.

(** * Further properties of the session *)

Section Shapes.
Context `{Libraries}.

Lemma stable_refreshToken P : stable P -> preserves P refreshToken.
Proof.
  intros HP [a st] Hs. destruct (refreshToken_path a st) as (r & a' & st' & E & Pth).
  rewrite E. simpl in *. inversion Pth; subst; try exact Hs. apply HP, Hs.
Qed.

Lemma stable_getBody P {T} link (d : T) um :
  stable P -> preserves P (getBody link d um).
Proof.
  intros HP s Hs. rewrite getBody_session. apply stable_refreshToken; assumption.
Qed.

(** What [refreshToken] adds to the trace. *)
Lemma refreshToken_events s :
  exists ex, trace (refreshToken s).2.2 = trace s.2 ++ ex
             /\ exchange_events s.1 ex.
Proof.
  destruct s as [a st]. destruct (refreshToken_path a st) as (r & a' & st' & E & Pth).
  rewrite E. inversion Pth; subst; simpl.
  1,2: exists []; rewrite app_nil_r; split; [reflexivity|constructor].
  all: eexists; split; [reflexivity|]; constructor; assumption.
Qed.

Lemma refreshToken_Debug s : Debug (refreshToken s).2.1 = Debug s.1.
Proof.
  destruct s as [a st]. destruct (refreshToken_path a st) as (r & a' & st' & E & Pth).
  rewrite E. inversion Pth; subst; reflexivity.
Qed.

Lemma refreshToken_heap s : heap (refreshToken s).2.2 = heap s.2.
Proof.
  destruct s as [a st]. destruct (refreshToken_path a st) as (r & a' & st' & E & Pth).
  rewrite E. inversion Pth; subst; reflexivity.
Qed.

(** What [getBody] adds to the trace after the refresh, and that it leaves
    the heap alone. *)
Lemma getBody_after_refresh {T} link (d : T) um s :
  exists rt,
    trace (getBody link d um s).2.2 = trace (refreshToken s).2.2 ++ rt
    /\ round_trip_events s.1 link rt
    /\ heap (getBody link d um s).2.2 = heap s.2.
Proof.
  pose proof (refreshToken_UserAgent s) as Hua.
  pose proof (refreshToken_Debug s) as Hdb.
  pose proof (refreshToken_heap s) as Hh.
  unfold getBody. run.
  destruct (refreshToken s) as [[r|] [a1 st1]]; simpl in *.
  2:{ exists []. rewrite app_nil_r. repeat split; auto. constructor. }
  destruct (http_NewRequest "GET" link) as [req0|msg] eqn:En; simpl.
  2:{ exists []. rewrite app_nil_r. repeat split; auto. constructor. }
  destruct (Client a1) as [c1|]; simpl.
  2:{ exists []. rewrite app_nil_r. repeat split; auto. constructor. }
  destruct (Client_Do _ _ _) as [[rsp|msg] w]; simpl.
  2:{ eexists. split; [reflexivity|].
      rewrite Hua. repeat split; auto. constructor. assumption. }
  destruct (ioutil_ReadAll _ _) as [[body e] w']; simpl.
  destruct (Debug a1) eqn:Ed; simpl; destruct (um body d) as [d' err]; simpl;
    eexists; rewrite <- !app_assoc; simpl;
    (split; [reflexivity|]); rewrite Hua; repeat split; auto.
  - apply round_trip_debug; [assumption|congruence].
  - apply round_trip_quiet; [assumption|congruence].
Qed.

Lemma getBody_events {T} link (d : T) um s :
  exists ex rt,
    trace (getBody link d um s).2.2 = trace s.2 ++ ex ++ rt
    /\ exchange_events s.1 ex
    /\ round_trip_events s.1 link rt
    /\ heap (getBody link d um s).2.2 = heap s.2.
Proof.
  destruct (refreshToken_events s) as (ex & Ht & Hex).
  destruct (getBody_after_refresh link d um s) as (rt & Hg & Hrt & Hh).
  exists ex, rt. rewrite Hg, Ht, app_assoc. auto.
Qed.

Lemma getBody_no_panic {T} link (d : T) um s :
  OAuthConfig s.1 <> None -> (getBody link d um s).1 <> Panics.
Proof.
  intros Hc. rewrite getBody_fetch. unfold fetch. run.
  destruct s as [a st]. destruct (refreshToken_path a st) as (r & a' & st' & E & Pth).
  rewrite E. simpl in *.
  inversion Pth; subst; simpl; try contradiction;
    (destruct (http_NewRequest "GET" link) as [req0|?]; simpl; [|discriminate]);
    match goal with
    | |- context [match Client ?x with _ => _ end] => destruct (Client x); simpl
    | _ => idtac
    end; try discriminate;
    (destruct (Client_Do _ _ _) as [[rsp|?] ?]; simpl; [|discriminate]);
    (destruct (ioutil_ReadAll _ _) as [[body ?] ?]; simpl);
    match goal with
    | |- context [if ?b then _ else _] => destruct b; simpl
    | _ => idtac
    end; discriminate.
Qed.

End Shapes.

Section Calls.
Context `{Libraries}.

Lemma collect_trophies_returns t s :
  exists l h,
    collect_trophies t s
    = (Returns l, (s.1, {| world := world s.2; trace := trace s.2; heap := h |})).
Proof.
  destruct t as [[|first rest]].
  - exists [], (heap s.2). destruct s as [a []]; reflexivity.
  - destruct (collect_trophies_aliases first rest s) as (l & h & E & _).
    rewrite E. eauto.
Qed.

(** A call whose options do not serialize, or [Comments] on a nil
    submission, ends before anything is fetched. *)
Lemma invoke_options_error c params msg s :
  call_options c = Some params ->
  query_Values params = inr msg ->
  invoke c s = (Returns (nil_reply c, Some (ErrQueryValues msg)), s).
Proof.
  intros Hc Hq. destruct c; simpl in Hc; try discriminate;
    injection Hc as ->; simpl; unfold_methods; rewrite Hq; destruct s; reflexivity.
Qed.

Lemma invoke_nil_submission sort params p s :
  query_Values params = inl p ->
  invoke (CallComments None sort params) s = (Panics, s).
Proof.
  intros Hq. simpl. unfold_methods. rewrite Hq. destruct s; reflexivity.
Qed.

(** Every other call is one [getBody] on its target link, whose error or
    panic it passes on with a nil result. *)
Lemma invoke_getBody c s link :
  target_link c = Some link ->
  exists (T : Type) (d : T) um,
    match (getBody link d um s).1 with
    | Panics => invoke c s = (Panics, (getBody link d um s).2)
    | Returns (_, Some e) =>
        invoke c s = (Returns (nil_reply c, Some e), (getBody link d um s).2)
    | Returns (_, None) =>
        exists r h,
          invoke c s
          = (Returns (r, None),
             ((getBody link d um s).2.1,
              {| world := world (getBody link d um s).2.2;
                 trace := trace (getBody link d um s).2.2;
                 heap := h |}))
    end.
Proof.
  intros Hl.
  destruct c; simpl in Hl;
    try match type of Hl with
        | context [query_Values ?p] => destruct (query_Values p) eqn:Hq
        end;
    try match type of Hl with
        | context [match ?h with Some _ => _ | None => _ end] =>
            is_var h; destruct h
        end;
    try discriminate; injection Hl as <-; simpl; unfold_methods;
    rewrite ?Hq; run;
    match goal with
    | |- context [getBody ?l ?d ?um s] =>
        exists _, d, um; destruct (getBody l d um s) as [[[d' [e'|]]|] [a2 st2]]
    end; simpl; try reflexivity;
    try (destruct st2; do 2 eexists; reflexivity).
  destruct (collect_trophies_returns d' (a2, st2)) as (l & h & E).
  rewrite E. simpl. eauto.
Qed.

Lemma invoke_trace c s link :
  target_link c = Some link ->
  exists (T : Type) (d : T) um,
    (invoke c s).2.1 = (getBody link d um s).2.1
    /\ trace (invoke c s).2.2 = trace (getBody link d um s).2.2.
Proof.
  intros Hl. destruct (invoke_getBody c s link Hl) as (T & d & um & Hi).
  exists T, d, um.
  destruct (getBody link d um s) as [[[d' [e'|]]|] s2]; simpl in *.
  - rewrite Hi. auto.
  - destruct Hi as (r & h & Hi). rewrite Hi. auto.
  - rewrite Hi. auto.
Qed.

Lemma invoke_without_link c s : target_link c = None -> (invoke c s).2 = s.
Proof.
  intros Hl.
  destruct c; simpl in Hl; try discriminate;
    try match type of Hl with
        | context [query_Values ?p] => destruct (query_Values p) eqn:Hq
        end;
    try match type of Hl with
        | context [match ?h with Some _ => _ | None => _ end] =>
            is_var h; destruct h
        end; try discriminate.
  all: try (erewrite invoke_options_error by (simpl; eauto); reflexivity).
  erewrite invoke_nil_submission by eauto. reflexivity.
Qed.

Lemma invoke_after_refresh c s link :
  target_link c = Some link ->
  exists rt,
    trace (invoke c s).2.2 = trace (refreshToken s).2.2 ++ rt
    /\ round_trip_events s.1 link rt.
Proof.
  intros Hl. destruct (invoke_trace c s link Hl) as (T & d & um & _ & Ht).
  destruct (getBody_after_refresh link d um s) as (rt & Hg & Hrt & _).
  exists rt. rewrite Ht. auto.
Qed.

Lemma invoke_events c s :
  exists ex rt,
    trace (invoke c s).2.2 = trace s.2 ++ ex ++ rt
    /\ exchange_events s.1 ex
    /\ match target_link c with
       | Some link => round_trip_events s.1 link rt
       | None => ex = [] /\ rt = []
       end.
Proof.
  destruct (target_link c) as [link|] eqn:Hl.
  - destruct (invoke_after_refresh c s link Hl) as (rt & Ht & Hrt).
    destruct (refreshToken_events s) as (ex & Hr & Hex).
    exists ex, rt. rewrite Ht, Hr, app_assoc. auto.
  - exists [], []. rewrite !app_nil_r, (invoke_without_link c s Hl).
    split; [reflexivity|]. split; [constructor|auto].
Qed.

Lemma stable_invoke P c : stable P -> preserves P (invoke c).
Proof.
  intros HP s Hs. destruct (target_link c) as [link|] eqn:Hl.
  - destruct (invoke_trace c s link Hl) as (T & d & um & Ha & _).
    rewrite Ha. apply stable_getBody; assumption.
  - rewrite (invoke_without_link c s Hl). exact Hs.
Qed.

Lemma stable_exec_all P ops s : stable P -> P s.1 -> P (exec_all ops s).1.
Proof.
  intros HP. revert s. induction ops as [|op ops IH]; intros s Hs; simpl; [exact Hs|].
  apply IH. destruct op; simpl; [apply stable_refreshToken|apply stable_invoke]; assumption.
Qed.

End Calls.

Section Session.
Context `{Libraries}.

Lemma stable_same_identity a : stable (same_identity a).
Proof. intros b t c Hb. exact Hb. Qed.

Lemma same_identity_refl a : same_identity a a.
Proof. repeat split. Qed.

(** X1: on a session whose token has expired, a successful exchange makes
    [refreshToken] return nil, store the expiry of the new token and a
    client made from the configuration, keep the other fields and add one
    exchange to the trace. The next call, at a clock reading before the new
    expiry, returns nil and changes nothing in the session or the trace. *)
Theorem refreshToken_success_opens_window a st cfg tok w2 :
  Before (time_Now (world st)).1 (TokenExpiry a) = false ->
  OAuthConfig a = Some cfg ->
  Config_Token cfg (ctx a) (time_Now (world st)).2 = (inl tok, w2) ->
  exists a' st',
    refreshToken (a, st) = (Returns None, (a', st'))
    /\ TokenExpiry a' = Expiry tok
    /\ Client a' = Some (Config_Client cfg (ctx a))
    /\ same_identity a a'
    /\ trace st' = trace st ++ [EvToken cfg]
    /\ (Before (time_Now (world st')).1 (Expiry tok) = true ->
        exists w3, refreshToken (a', st') = (Returns None, (a', unlogged w3 st'))).
Proof.
  intros Hb Hc Ht. do 2 eexists.
  split; [exact (refreshToken_success _ _ _ _ _ Hb Hc Ht)|].
  repeat split. intros Hn. eexists. apply refreshToken_fresh. exact Hn.
Qed.

(** X2: [refreshToken] panics exactly when the clock is not before the
    expiry and the session has no configuration; the session and the trace
    are then as they were. *)
Theorem refreshToken_panics_iff a st :
  ((refreshToken (a, st)).1 = Panics
   <-> Before (time_Now (world st)).1 (TokenExpiry a) = false
       /\ OAuthConfig a = None)
  /\ ((refreshToken (a, st)).1 = Panics ->
      (refreshToken (a, st)).2.1 = a
      /\ trace (refreshToken (a, st)).2.2 = trace st).
Proof.
  destruct (refreshToken_path a st) as (r & a' & st' & E & Pth). rewrite E. simpl.
  inversion Pth; subst; simpl; split; try (split; [|auto]);
    try discriminate; try (intros [? ?]; congruence); auto.
Qed.

Lemma exec_all_same_identity ops s : same_identity s.1 (exec_all ops s).1.
Proof.
  apply stable_exec_all; [apply stable_same_identity|apply same_identity_refl].
Qed.

(** X3: no sequence of token refreshes and method calls changes the client
    id, the client secret, the OAuth configuration, the user agent, the
    context or the debug flag of a session. *)
Theorem identity_fields_never_change ops s :
  ClientID (exec_all ops s).1 = ClientID s.1
  /\ ClientSecret (exec_all ops s).1 = ClientSecret s.1
  /\ OAuthConfig (exec_all ops s).1 = OAuthConfig s.1
  /\ UserAgent (exec_all ops s).1 = UserAgent s.1
  /\ ctx (exec_all ops s).1 = ctx s.1
  /\ Debug (exec_all ops s).1 = Debug s.1.
Proof.
  change (same_identity s.1 (exec_all ops s).1).
  apply stable_exec_all.
  - intros b t c Hb. exact Hb.
  - repeat split.
Qed.

(** X4: on a session that has its OAuth configuration, after any sequence
    of operations, no method panics, except [Comments] called on a nil
    submission. *)
Theorem methods_never_panic ops c s :
  OAuthConfig s.1 <> None ->
  nil_submission c = false ->
  (invoke c (exec_all ops s)).1 <> Panics.
Proof.
  intros Hc Hn.
  assert (OAuthConfig (exec_all ops s).1 <> None) as Hc'.
  { destruct (exec_all_same_identity ops s) as (_ & _ & -> & _). exact Hc. }
  revert Hc'. generalize (exec_all ops s). clear s Hc. intros s Hc.
  destruct (target_link c) as [link|] eqn:Hl.
  - destruct (invoke_getBody c s link Hl) as (T & d & um & Hi).
    pose proof (getBody_no_panic link d um s Hc) as Hg.
    destruct (getBody link d um s) as [[[d' [e'|]]|] s2]; simpl in *.
    + rewrite Hi. discriminate.
    + destruct Hi as (r & h & Hi). rewrite Hi. discriminate.
    + contradiction.
  - destruct c; simpl in Hl, Hn; try discriminate;
      try match type of Hl with
          | context [query_Values ?p] => destruct (query_Values p) eqn:Hq
          end;
      try match type of Hl with
          | context [match ?h with Some _ => _ | None => _ end] =>
              is_var h; destruct h
          end; try discriminate.
    all: erewrite invoke_options_error by (simpl; eauto); discriminate.
Qed.

(** X5: when the options of a call do not serialize, the method returns
    that error with a nil result and does nothing else: the session, the
    world, the trace and the heap are as before. This holds for [Comments]
    on a nil submission too, since the options are serialized first. *)
Theorem options_error_ends_call c params msg s :
  call_options c = Some params ->
  query_Values params = inr msg ->
  invoke c s = (Returns (nil_reply c, Some (ErrQueryValues msg)), s)
  /\ is_nil (nil_reply c) = true.
Proof.
  intros Hc Hq. split; [exact (invoke_options_error c params msg s Hc Hq)|].
  destruct c; reflexivity.
Qed.

(** X6: [Comments] on a nil submission whose options serialize panics
    before anything is fetched: nothing is read from the clock, exchanged
    or requested. *)
Theorem Comments_nil_submission_panics sort params p s :
  query_Values params = inl p ->
  Comments None sort params s = (Panics, s)
  /\ invoke (CallComments None sort params) s = (Panics, s)
  /\ target_link (CallComments None sort params) = None.
Proof.
  intros Hq. split; [|split].
  - unfold Comments. rewrite Hq. destruct s; reflexivity.
  - exact (invoke_nil_submission sort params p s Hq).
  - simpl. rewrite Hq. reflexivity.
Qed.

(** X7: an error that stops the fetch before the decoding is what the
    method returns, with a nil result, in the state the fetch left. It is
    the error of [http.NewRequest] (the link does not parse), the no-client
    error, or the error of [Client.Do], whatever that reports. *)
Theorem fetch_error_is_returned c link s e s1 :
  target_link c = Some link ->
  fetch link s = (Returns (inl e), s1) ->
  invoke c s = (Returns (nil_reply c, Some e), s1)
  /\ is_nil (nil_reply c) = true
  /\ ((exists msg, e = ErrNewRequest msg) \/ e = ErrNoClient
      \/ (exists msg, e = ErrDo msg)).
Proof.
  intros Hl Hf. destruct (invoke_getBody c s link Hl) as (T & d & um & Hi).
  rewrite getBody_fetch, Hf in Hi. simpl in Hi.
  split; [exact Hi|]. split; [destruct c; reflexivity|].
  exact (proj1 (fetch_error _ _ _ _ Hf)).
Qed.

End Session.

Section Results.
Context `{Libraries}.

(** X8: from a decoded envelope, [Listing], [Upvoted],
    [SubredditSubmissions] and [Frontpage] return the data of the children,
    one record per child and in their order (a nil [Data] gives a nil
    record), with a nil error, in the state the fetch left. *)
Theorem submissions_follow_children params p s r s1 :
  query_Values params = inl p ->
  (forall u l sort,
     getBody (Listing_url u l sort p) {| Children := [] |} json_Unmarshal_resp s
     = (Returns (r, None), s1) ->
     Listing u l sort params s = (Returns (child_Data <$> Children r, None), s1))
  /\ (forall u sort,
        getBody (Listing_url u "upvoted" sort p) {| Children := [] |}
          json_Unmarshal_resp s
        = (Returns (r, None), s1) ->
        Upvoted u sort params s = (Returns (child_Data <$> Children r, None), s1))
  /\ (forall sub sort,
        getBody (SubredditSubmissions_redditURL sub sort p) {| Children := [] |}
          json_Unmarshal_resp s
        = (Returns (r, None), s1) ->
        SubredditSubmissions sub sort params s
        = (Returns (child_Data <$> Children r, None), s1))
  /\ (forall sort,
        getBody (SubredditSubmissions_redditURL "" sort p) {| Children := [] |}
          json_Unmarshal_resp s
        = (Returns (r, None), s1) ->
        Frontpage sort params s = (Returns (child_Data <$> Children r, None), s1)).
Proof.
  intros Hq. repeat apply conj; intros.
  - eapply Listing_returns_children; eassumption.
  - eapply Listing_returns_children; eassumption.
  - eapply SubredditSubmissions_returns_children; eassumption.
  - eapply SubredditSubmissions_returns_children; eassumption.
Qed.

Lemma range_Trophies_other l items acc s p :
  p <> l ->
  heap (range_Trophies l items acc s).2.2 !! p = heap s.2 !! p.
Proof.
  intros Hp. revert acc s. induction items as [|item rest IH]; intros acc s.
  - reflexivity.
  - simpl. run. rewrite IH. simpl. apply lookup_insert_ne. congruence.
Qed.

Lemma collect_trophies_keeps t s p :
  is_Some (heap s.2 !! p) ->
  heap (collect_trophies t s).2.2 !! p = heap s.2 !! p.
Proof.
  intros Hp. unfold collect_trophies. destruct (Trophies t) as [|first rest] eqn:Et.
  - reflexivity.
  - run.
    assert (p <> fresh (dom (heap s.2))) as Hne.
    { intros ->. apply elem_of_dom in Hp. exact (is_fresh _ Hp). }
    change (heap (range_Trophies (fresh (dom (heap s.2))) (first :: rest) []
                    (s.1, {| world := world s.2; trace := trace s.2;
                             heap := <[fresh (dom (heap s.2)) := first]> (heap s.2) |})).2.2
            !! p = heap s.2 !! p).
    rewrite range_Trophies_other by exact Hne.
    simpl. apply lookup_insert_ne. congruence.
Qed.

Lemma invoke_heap c s p :
  is_Some (heap s.2 !! p) -> heap (invoke c s).2.2 !! p = heap s.2 !! p.
Proof.
  intros Hp. destruct (target_link c) as [link|] eqn:Hl.
  2:{ rewrite (invoke_without_link c s Hl). reflexivity. }
  destruct c; simpl in Hl;
    try match type of Hl with
        | context [query_Values ?p] => destruct (query_Values p) eqn:Hq
        end;
    try match type of Hl with
        | context [match ?h with Some _ => _ | None => _ end] =>
            is_var h; destruct h
        end;
    try discriminate; injection Hl as <-; simpl; unfold_methods;
    rewrite ?Hq; run;
    match goal with
    | |- context [getBody ?l ?d ?um s] =>
        destruct (getBody_events l d um s) as (ex & rt & _ & _ & _ & Hh);
        destruct (getBody l d um s) as [[[d' [e'|]]|] [a2 st2]]
    end; simpl in *; try (rewrite Hh; reflexivity).
  rewrite <- Hh in Hp |- *.
  pose proof (collect_trophies_keeps d' (a2, st2) p Hp) as Hk.
  destruct (collect_trophies d' (a2, st2)) as [[l|] s3]; exact Hk.
Qed.

(** X9: the records that pointers already point to are not disturbed by
    any later method call: [UserTrophies] puts its range variable in a new
    cell, and the other methods do not write to the heap. *)
Theorem earlier_records_keep_their_data ops s p :
  is_Some (heap s.2 !! p) ->
  load (exec_all ops s).2 p = load s.2 p.
Proof.
  revert s. induction ops as [|op ops IH]; intros s Hp; simpl; [reflexivity|].
  assert (heap (exec op s).2 !! p = heap s.2 !! p) as Hstep.
  { destruct op; simpl.
    - rewrite refreshToken_heap. reflexivity.
    - apply invoke_heap, Hp. }
  rewrite IH by (rewrite Hstep; exact Hp).
  unfold load. rewrite Hstep. reflexivity.
Qed.

End Results.

Section Traces.
Context `{Libraries}.

Lemma requested_app tr tr' : requested (tr ++ tr') = requested tr ++ requested tr'.
Proof. apply omap_app. Qed.



Lemma printed_app tr tr' : printed (tr ++ tr') = printed tr ++ printed tr'.
Proof. apply omap_app. Qed.

(** X10: a method call makes at most one token exchange and sends at most
    one HTTP request; nothing is retried. *)
Theorem one_exchange_one_request_per_call c s :
  exists evs,
    trace (invoke c s).2.2 = trace s.2 ++ evs
    /\ (exchanges evs <= 1)%nat
    /\ (length (requested evs) <= 1)%nat.
Proof.
  destruct (invoke_events c s) as (ex & rt & Ht & Hex & Hrt).
  exists (ex ++ rt). split; [exact Ht|].
  rewrite exchanges_app, requested_app, length_app.
  assert ((exchanges ex <= 1)%nat /\ requested ex = []) as [He1 He2]
    by (inversion Hex; subst; split; unfold exchanges; simpl; auto).
  assert (exchanges rt = 0%nat /\ (length (requested rt) <= 1)%nat) as [Hr1 Hr2].
  { destruct (target_link c).
    - inversion Hrt; subst; split; unfold exchanges; simpl; auto.
    - destruct Hrt as [_ ->]. split; unfold exchanges; simpl; auto. }
  rewrite He2, Hr1. simpl. lia.
Qed.


Lemma exec_printed op s :
  Debug s.1 = false -> printed (trace (exec op s).2) = printed (trace s.2).
Proof.
  intros Hd. destruct op; simpl.
  - destruct (refreshToken_events s) as (ex & Ht & Hex). rewrite Ht, printed_app.
    inversion Hex; subst; simpl; rewrite app_nil_r; reflexivity.
  - destruct (invoke_events c s) as (ex & rt & Ht & Hex & Hrt).
    rewrite Ht, !printed_app.
    assert (printed ex = []) as -> by (inversion Hex; subst; reflexivity).
    assert (printed rt = []) as ->.
    { destruct (target_link c).
      - inversion Hrt; subst; try reflexivity. congruence.
      - destruct Hrt as [_ ->]. reflexivity. }
    rewrite !app_nil_r. reflexivity.
Qed.

(** X12: the constructor drops its [debug] argument: the session it makes
    has the debug flag off whatever the argument, and no sequence of
    operations on that session ever prints a response body. *)
Theorem constructor_ignores_debug clientID clientSecret useragent debug st ops :
  let a := (NewAppOnlyOAuthSession clientID clientSecret useragent debug st).1.1 in
  a = (NewAppOnlyOAuthSession clientID clientSecret useragent (negb debug) st).1.1
  /\ Debug a = false
  /\ Debug (exec_all ops (a, st)).1 = false
  /\ printed (trace (exec_all ops (a, st)).2) = printed (trace st).
Proof.
  intros a. split; [reflexivity|].
  assert (Debug a = false) as Hd.
  { unfold a, NewAppOnlyOAuthSession. simpl.
    destruct (decide (useragent ≠ "")); reflexivity. }
  split; [exact Hd|].
  change st with (a, st).2 at 3. change (Debug (a, st).1 = false) in Hd.
  generalize dependent (a, st). clear a. intros s Hd.
  revert s Hd. induction ops as [|op ops IH]; intros s Hd; simpl; [auto|].
  assert (Debug (exec op s).1 = false) as Hd'.
  { destruct (exec_all_same_identity [op] s) as (_ & _ & _ & _ & _ & Hdb).
    simpl in Hdb. congruence. }
  destruct (IH _ Hd') as [H1 H2]. split; [exact H1|].
  rewrite H2. apply exec_printed, Hd.
Qed.

(** X13: the first fetching call on a session made by the constructor, at
    any clock reading from the zero time on, starts with a token exchange
    that carries the client id and secret given to the constructor and the
    token URL of the platform. *)
Theorem first_call_exchanges_with_credentials
    clientID clientSecret useragent debug st c link :
  let a := (NewAppOnlyOAuthSession clientID clientSecret useragent debug st).1.1 in
  0 <= (time_Now (world st)).1 ->
  target_link c = Some link ->
  exists evs,
    trace (invoke c (a, st)).2.2
    = trace st
      ++ EvToken {| cfg_ClientID := clientID; cfg_ClientSecret := clientSecret;
                    cfg_TokenURL := "https://www.reddit.com/api/v1/access_token" |}
      :: evs.
Proof.
  intros a Hnow Hl.
  destruct (invoke_after_refresh c (a, st) link Hl) as (rt & Ht & _).
  exists rt. rewrite Ht.
  assert (Before (time_Now (world st)).1 (TokenExpiry a) = false) as Hb.
  { unfold a, NewAppOnlyOAuthSession, Before. simpl.
    destruct (decide (useragent ≠ "")); simpl; apply Z.ltb_ge; exact Hnow. }
  assert (OAuthConfig a
          = Some {| cfg_ClientID := clientID; cfg_ClientSecret := clientSecret;
                    cfg_TokenURL := "https://www.reddit.com/api/v1/access_token" |})
    as Hc.
  { unfold a, NewAppOnlyOAuthSession. simpl.
    destruct (decide (useragent ≠ "")); reflexivity. }
  destruct (Config_Token
              {| cfg_ClientID := clientID; cfg_ClientSecret := clientSecret;
                 cfg_TokenURL := "https://www.reddit.com/api/v1/access_token" |}
              (ctx a) (time_Now (world st)).2) as [[tok|msg] w2] eqn:Etok.
  - rewrite (refreshToken_success _ _ _ _ _ Hb Hc Etok). simpl.
    rewrite <- app_assoc. reflexivity.
  - rewrite (refreshToken_failure _ _ _ _ _ Hb Hc Etok). simpl.
    rewrite <- app_assoc. reflexivity.
Qed.

(** X14: a fetching call on a session that has its configuration calls
    [OAuthConfig.Token], in its [refreshToken], once when its clock reading
    is not before the stored expiry and not at all when it is before,
    whether the session has a client or not. The count is of the calls of
    [OAuthConfig.Token]; what the client does inside [Client.Do] is not
    part of it. *)
Theorem call_exchanges_iff_expired c link s cfg :
  target_link c = Some link ->
  OAuthConfig s.1 = Some cfg ->
  (Before (time_Now (world s.2)).1 (TokenExpiry s.1) = false ->
   exchanges (trace (invoke c s).2.2) = S (exchanges (trace s.2)))
  /\ (Before (time_Now (world s.2)).1 (TokenExpiry s.1) = true ->
      exchanges (trace (invoke c s).2.2) = exchanges (trace s.2)).
Proof.
  intros Hl Hc. destruct (invoke_after_refresh c s link Hl) as (rt & Ht & Hrt).
  assert (exchanges rt = 0%nat) as Hr
    by (inversion Hrt; subst; unfold exchanges; reflexivity).
  rewrite Ht, exchanges_app, Hr, Nat.add_0_r. destruct s as [a st]. simpl in *.
  split; intros Hb.
  - exact (refreshToken_expired_exchanges a st cfg Hb Hc).
  - rewrite (refreshToken_fresh _ _ Hb). reflexivity.
Qed.

End Traces.

Section Requests_more.
Context `{Libraries}.

Lemma NewRequest_inv link req0 :
  http_NewRequest "GET" link = inl req0 ->
  exists u, url_Parse link = inl u
            /\ req0 = {| Method := "GET"; req_URL := u; Header := ∅ |}.
Proof.
  unfold http_NewRequest. destruct (url_Parse link) as [u|msg]; [|discriminate].
  intros [= <-]. eauto.
Qed.

(** X15: every request a method hands to [Client.Do] is a [GET] of the
    parsed target link of the call, and the header the method has built
    for it holds one key, [User-Agent], with the user agent of the
    session. What the client adds when it sends the request (the
    transport of package [oauth2] sets [Authorization] on a copy) is
    inside [Client.Do]. For [AboutRedditor], [UserTrophies] and
    [AboutSubreddit] the target link is the template with the identifier
    copied in as it is. *)
Theorem requests_are_GET_with_user_agent c s :
  (exists evs,
     trace (invoke c s).2.2 = trace s.2 ++ evs
     /\ forall cl req, EvDo cl req ∈ evs ->
          Method req = "GET"
          /\ Header req = {["User-Agent" := [UserAgent s.1]]}
          /\ exists link, target_link c = Some link
                          /\ url_Parse link = inl (req_URL req))
  /\ (forall user,
        target_link (CallAboutRedditor user)
        = Some ("https://oauth.reddit.com/user/" +:+ user +:+ "/about"))
  /\ (forall user,
        target_link (CallUserTrophies user)
        = Some ("https://oauth.reddit.com/api/v1/user/" +:+ user +:+ "/trophies"))
  /\ (forall name,
        target_link (CallAboutSubreddit name)
        = Some ("https://oauth.reddit.com/r/" +:+ name +:+ "/about")).
Proof.
  split.
  - destruct (invoke_events c s) as (ex & rt & Ht & Hex & Hrt).
    exists (ex ++ rt). split; [exact Ht|].
    intros cl req Hin. apply elem_of_app in Hin as [Hin|Hin].
    { inversion Hex; subst.
      - apply elem_of_nil in Hin. contradiction.
      - apply list_elem_of_singleton in Hin. discriminate. }
    destruct (target_link c) as [link|].
    2:{ destruct Hrt as [_ ->]. apply elem_of_nil in Hin. contradiction. }
    assert (exists req0, http_NewRequest "GET" link = inl req0
                         /\ req = Header_Set req0 "User-Agent" (UserAgent s.1))
      as (req0 & Hn & ->).
    { inversion Hrt; subst;
        repeat (apply elem_of_cons in Hin as [Hin|Hin];
                [try discriminate; try (injection Hin as _ ->; eauto)|]);
        apply elem_of_nil in Hin; contradiction. }
    destruct (NewRequest_inv _ _ Hn) as (u & Hu & ->). simpl.
    split; [reflexivity|]. split; [apply insert_empty|eauto].
  - repeat split; intros; simpl;
      unfold AboutRedditor_link, UserTrophies_url, AboutSubreddit_link, fmt.Sprintf;
      simpl; reflexivity.
Qed.

Lemma verb_nonempty pre post : pre +:+ "%s" +:+ post <> "".
Proof. destruct pre; discriminate. Qed.

(** X16: the subreddit name is part of the format string of
    [SubredditSubmissions]. A name that holds [%s] between two parts
    without [%] takes the sort key in the place of its [%s]; the encoded
    options then land where the sort key belongs, and the query string is
    the text [fmt] prints for a missing operand. *)
Theorem subreddit_verb_takes_sort_key pre post sort v :
  fmt.plain pre = true ->
  fmt.plain post = true ->
  SubredditSubmissions_redditURL (pre +:+ "%s" +:+ post) sort v
  = "https://oauth.reddit.com/r/" +:+ pre +:+ sort +:+ post +:+ "/"
    +:+ url.Values_Encode v +:+ ".json?%!s(MISSING)".
Proof.
  intros Hpre Hpost. unfold SubredditSubmissions_redditURL.
  destruct (decide (pre +:+ "%s" +:+ post ≠ "")) as [_|Hn];
    [|destruct Hn; apply verb_nonempty].
  unfold fmt.Sprintf.
  replace (("https://oauth.reddit.com" +:+ "/r/" +:+ pre +:+ "%s" +:+ post)
           +:+ "/%s.json?%s")
    with (("https://oauth.reddit.com/r/" +:+ pre)
          +:+ String "%" (String "s" (post +:+ "/%s.json?%s"))).
  2:{ change ("https://oauth.reddit.com" +:+ "/r/" +:+ pre +:+ "%s" +:+ post)
        with ("https://oauth.reddit.com/r/" +:+ pre +:+ "%s" +:+ post).
      change (String "%" (String "s" (post +:+ "/%s.json?%s")))
        with ("%s" +:+ post +:+ "/%s.json?%s").
      rewrite !append_assoc. reflexivity. }
  rewrite doPrintf_plain_prefix by (rewrite plain_app; exact Hpre).
  change (fmt.doPrintf (String "%" (String "s" (post +:+ "/%s.json?%s")))
            [sort; url.Values_Encode v])
    with ((fun r => sort +:+ r)
            <$> fmt.doPrintf (post +:+ "/%s.json?%s") [url.Values_Encode v]).
  rewrite doPrintf_plain_prefix by exact Hpost.
  simpl. rewrite !append_assoc. reflexivity.
Qed.

(** X17: the refresh looks at the expiry only. A session without a client
    whose expiry is still ahead is not refreshed: [getBody] on a link that
    parses returns the no-client error without an exchange or a request,
    and leaves the target and the session as they were. *)
Theorem no_client_and_no_refresh_before_expiry {T} link (d : T) um a st req :
  Client a = None ->
  Before (time_Now (world st)).1 (TokenExpiry a) = true ->
  http_NewRequest "GET" link = inl req ->
  getBody link d um (a, st)
  = (Returns (d, Some ErrNoClient), (a, unlogged (time_Now (world st)).2 st)).
Proof.
  intros Hc Hb Hn. rewrite getBody_fetch.
  rewrite (fetch_no_client link (a, st) None _ req (refreshToken_fresh _ _ Hb) Hn Hc).
  reflexivity.
Qed.

End Requests_more.

Section Debugging.
Context `{Libraries}.

Lemma refreshToken_printed s :
  printed (trace (refreshToken s).2.2) = printed (trace s.2).
Proof.
  destruct (refreshToken_events s) as (ex & Ht & Hex). rewrite Ht, printed_app.
  inversion Hex; subst; simpl; rewrite app_nil_r; reflexivity.
Qed.

Lemma debug_text body :
  fmt.Sprintf fmt_other debug_format [body]
  = "***DEBUG***" +:+ nl +:+ "Request Body: " +:+ body +:+ nl
    +:+ "***DEBUG***" +:+ nl +:+ nl.
Proof. unfold fmt.Sprintf. simpl. reflexivity. Qed.

(** X18: in debug mode a body that has been read is printed once, between
    the two [***DEBUG***] lines, before it is decoded, so also when it does
    not decode; outside debug mode nothing is printed. *)
Theorem debug_prints_the_body_read c link s rsp body s1 :
  target_link c = Some link ->
  fetch link s = (Returns (inr (rsp, body)), s1) ->
  printed (trace (invoke c s).2.2)
  = printed (trace s.2)
    ++ (if Debug s.1
        then ["***DEBUG***" +:+ nl +:+ "Request Body: " +:+ body +:+ nl
              +:+ "***DEBUG***" +:+ nl +:+ nl]
        else []).
Proof.
  intros Hl Hf.
  destruct (invoke_trace c s link Hl) as (T & d & um & _ & ->).
  rewrite getBody_fetch, Hf. simpl. rewrite printed_app. simpl. rewrite app_nil_r.
  rewrite <- debug_text.
  pose proof (refreshToken_printed s) as Hp.
  pose proof (refreshToken_Debug s) as Hd.
  revert Hf. unfold fetch. run.
  destruct (refreshToken s) as [[r|] [a1 st1]]; simpl in *; [|discriminate].
  rewrite <- Hp, <- Hd.
  destruct (http_NewRequest "GET" link) as [req0|msg]; simpl; [|discriminate].
  destruct (Client a1) as [c1|]; simpl; [|discriminate].
  destruct (Client_Do _ _ _) as [[rsp'|msg] w]; simpl; [|discriminate].
  destruct (ioutil_ReadAll _ _) as [[body' e] w']; simpl.
  destruct (Debug a1); simpl; intros [= <- <- <-]; simpl;
    rewrite ?printed_app; simpl; rewrite ?app_nil_r; reflexivity.
Qed.

(** X19: a method that returns an error returns the nil result of its
    type with it, whatever the error. *)
Theorem error_comes_with_nil_result c s r e s' :
  invoke c s = (Returns (r, Some e), s') ->
  r = nil_reply c /\ is_nil r = true.
Proof.
  intros Hi.
  assert (r = nil_reply c) as ->; [|split; [reflexivity|destruct c; reflexivity]].
  destruct (target_link c) as [link|] eqn:Hl.
  - destruct (invoke_getBody c s link Hl) as (T & d & um & Hg).
    destruct (getBody link d um s) as [[[d' [e'|]]|] s2]; simpl in Hg.
    + rewrite Hg in Hi. congruence.
    + destruct Hg as (r' & h & Hg). rewrite Hg in Hi. discriminate.
    + rewrite Hg in Hi. discriminate.
  - destruct c; simpl in Hl; try discriminate;
      try match type of Hl with
          | context [query_Values ?p] => destruct (query_Values p) eqn:Hq
          end;
      try match type of Hl with
          | context [match ?h with Some _ => _ | None => _ end] =>
              is_var h; destruct h
          end; try discriminate.
    all: try (erewrite invoke_options_error in Hi by (simpl; eauto); congruence).
    erewrite invoke_nil_submission in Hi by eauto. discriminate.
Qed.

End Debugging.

(** * The further properties in the scripted worlds *)

Section Scenarios_more.
#[local] Existing Instance Demo.package.
#[local] Existing Instance Demo.libraries.

Lemma refreshToken_success_opens_window_witness :
  let st := Demo.start (Demo.granting 5 []) in
  exists a' st',
    refreshToken (Demo.fresh_session, st) = (Returns None, (a', st'))
    /\ TokenExpiry a' = 100
    /\ Client a' = Some Demo.cfg.
Proof.
  cbv zeta.
  destruct (refreshToken_success_opens_window
              Demo.fresh_session (Demo.start (Demo.granting 5 []))
              Demo.cfg {| AccessToken := "token"; Expiry := 100 |}
              {| Demo.clock := 6; Demo.token_script := []; Demo.http_script := [] |}
              eq_refl eq_refl eq_refl)
    as (a' & st' & E & He & Hc & _).
  exists a', st'. split; [exact E|]. split; [exact He|exact Hc].
Defined.

Lemma methods_never_panic_witness :
  let s := (Demo.fresh_session, Demo.start (Demo.rejecting 5 [])) in
  (invoke Samples.comments
     (exec_all [OpRefresh; OpCall (Samples.trophies "bob")] s)).1 <> Panics.
Proof.
  cbv zeta.
  apply (methods_never_panic [OpRefresh; OpCall (Samples.trophies "bob")]
           Samples.comments
           (Demo.fresh_session, Demo.start (Demo.rejecting 5 []))).
  - discriminate.
  - reflexivity.
Defined.

Lemma options_error_ends_call_witness :
  let s := (Strict.fresh_session, Strict.start (Demo.granting 5 [inl "ab"])) in
  @invoke _ Strict.libraries Strict.nil_comments s
  = (Returns (Comments_of [], Some (ErrQueryValues "empty option name")), s).
Proof.
  cbv zeta.
  exact (proj1 (@options_error_ends_call _ Strict.libraries
                  Strict.nil_comments Strict.nameless
                  "empty option name"
                  (Strict.fresh_session, Strict.start (Demo.granting 5 [inl "ab"]))
                  eq_refl eq_refl)).
Defined.

Lemma Comments_nil_submission_panics_witness :
  let s := (Demo.fresh_session, Demo.start (Demo.granting 5 [inl "ab"])) in
  Comments None "top" Demo.limit2 s = (Panics, s).
Proof.
  cbv zeta.
  exact (proj1 (Comments_nil_submission_panics "top" Demo.limit2
                  (<["limit" := ["2"]]> ∅)
                  (Demo.fresh_session, Demo.start (Demo.granting 5 [inl "ab"]))
                  eq_refl)).
Defined.

Lemma fetch_error_is_returned_witness :
  let s := (Demo.established, Demo.start (Demo.granting 5 [inr "connection reset"])) in
  exists s1,
    invoke Samples.about_bob s
    = (Returns (ARedditor None, Some (ErrDo "connection reset")), s1).
Proof.
  cbv zeta.
  set (s := (Demo.established, Demo.start (Demo.granting 5 [inr "connection reset"]))).
  set (link := "https://oauth.reddit.com/user/bob/about").
  assert ((fetch link s).1 = Returns (inl (ErrDo "connection reset"))) as Hout
    by (vm_compute; reflexivity).
  exists (fetch link s).2.
  apply (fetch_error_is_returned Samples.about_bob link s
           (ErrDo "connection reset") (fetch link s).2).
  - reflexivity.
  - revert Hout. generalize (fetch link s). intros [o s1] Hout.
    simpl in Hout. rewrite Hout. reflexivity.
Defined.

Lemma submissions_follow_children_witness :
  let s := (Demo.established, Demo.start (Demo.granting 5 [inl "ab"])) in
  exists s1,
    Frontpage "hot" Demo.limit2 s
    = (Returns ([Some "a"; Some "b"], None), s1).
Proof.
  cbv zeta.
  set (s := (Demo.established, Demo.start (Demo.granting 5 [inl "ab"]))).
  set (p := (<["limit" := ["2"]]> ∅ : url.Values)).
  set (g := getBody (SubredditSubmissions_redditURL "" "hot" p) {| Children := [] |}
              json_Unmarshal_resp s).
  assert (g.1 = Returns ({| Children := [Demo.kid "a"; Demo.kid "b"] |}, None))
    as Hout by (vm_compute; reflexivity).
  exists g.2.
  destruct (submissions_follow_children Demo.limit2 p s
              {| Children := [Demo.kid "a"; Demo.kid "b"] |} g.2 eq_refl)
    as (_ & _ & _ & Hfront).
  apply (Hfront "hot").
  fold g. revert Hout. generalize g. intros [o s1] Hout.
  simpl in Hout. rewrite Hout. reflexivity.
Defined.

Lemma earlier_records_keep_their_data_witness :
  let s := (Demo.established, Demo.start (Demo.granting 5 [inl "ab"; inl "cd"])) in
  let s1 := exec_all [OpCall (Samples.trophies "bob")] s in
  load (exec_all [OpCall (Samples.trophies "ann")] s1).2 0%nat = load s1.2 0%nat.
Proof.
  cbv zeta.
  apply (earlier_records_keep_their_data
           [OpCall (Samples.trophies "ann")]
           (exec_all [OpCall (Samples.trophies "bob")]
              (Demo.established,
               Demo.start (Demo.granting 5 [inl "ab"; inl "cd"])))
           0%nat).
  vm_compute. eauto.
Defined.

Lemma first_call_exchanges_with_credentials_witness :
  let st := Demo.start (Demo.rejecting 5 []) in
  exists evs,
    trace (invoke Samples.about_golang (Demo.fresh_session, st)).2.2
    = EvToken Demo.cfg :: evs.
Proof.
  cbv zeta.
  exact (first_call_exchanges_with_credentials "id" "secret" "" false
           (Demo.start (Demo.rejecting 5 [])) Samples.about_golang
           "https://oauth.reddit.com/r/golang/about"
           ltac:(vm_compute; discriminate) eq_refl).
Defined.

Lemma call_exchanges_iff_expired_witness :
  let fresh := (Demo.established, Demo.start (Demo.granting 5 [inl "ab"])) in
  let late := (Demo.established, Demo.start (Demo.granting 200 [inl "ab"])) in
  exchanges (trace (invoke Samples.about_bob fresh).2.2) = 0%nat
  /\ exchanges (trace (invoke Samples.about_bob late).2.2) = 1%nat.
Proof.
  cbv zeta. split.
  - apply (proj2 (call_exchanges_iff_expired Samples.about_bob
                    "https://oauth.reddit.com/user/bob/about"
                    (Demo.established, Demo.start (Demo.granting 5 [inl "ab"]))
                    Demo.cfg eq_refl eq_refl)).
    reflexivity.
  - apply (proj1 (call_exchanges_iff_expired Samples.about_bob
                    "https://oauth.reddit.com/user/bob/about"
                    (Demo.established, Demo.start (Demo.granting 200 [inl "ab"]))
                    Demo.cfg eq_refl eq_refl)).
    reflexivity.
Defined.

Lemma subreddit_verb_takes_sort_key_witness :
  SubredditSubmissions_redditURL "go%slang" "hot" (<["limit" := ["2"]]> ∅)
  = "https://oauth.reddit.com/r/gohotlang/limit=2.json?%!s(MISSING)".
Proof.
  exact (subreddit_verb_takes_sort_key "go" "lang" "hot" (<["limit" := ["2"]]> ∅)
           eq_refl eq_refl).
Defined.

Lemma no_client_and_no_refresh_before_expiry_witness :
  let a := set_TokenExpiry 100 Demo.fresh_session in
  let st := Demo.start (Demo.granting 5 [inl "ab"]) in
  exists st',
    getBody "https://oauth.reddit.com/user/bob/about" Demo.no_redditor
      json_Unmarshal_redditor (a, st)
    = (Returns (Demo.no_redditor, Some ErrNoClient), (a, st'))
    /\ trace st' = [].
Proof.
  cbv zeta. eexists. split.
  - exact (no_client_and_no_refresh_before_expiry
             "https://oauth.reddit.com/user/bob/about" Demo.no_redditor
             json_Unmarshal_redditor (set_TokenExpiry 100 Demo.fresh_session)
             (Demo.start (Demo.granting 5 [inl "ab"]))
             {| Method := "GET"; req_URL := "https://oauth.reddit.com/user/bob/about";
                Header := ∅ |}
             eq_refl eq_refl eq_refl).
  - reflexivity.
Defined.

Lemma debug_prints_the_body_read_witness :
  let s := (Samples.debugging, Demo.start (Demo.granting 5 [inl "a!"])) in
  (invoke Samples.about_bob s).1
  = Returns (ARedditor None, Some (ErrUnmarshal "invalid character '!'"))
  /\ printed (trace (invoke Samples.about_bob s).2.2)
     = ["***DEBUG***" +:+ nl +:+ "Request Body: a!" +:+ nl
        +:+ "***DEBUG***" +:+ nl +:+ nl].
Proof.
  cbv zeta.
  set (s := (Samples.debugging, Demo.start (Demo.granting 5 [inl "a!"]))).
  set (link := "https://oauth.reddit.com/user/bob/about").
  assert ((fetch link s).1 = Returns (inr ("a!", "a!"))) as Hout
    by (vm_compute; reflexivity).
  split; [vm_compute; reflexivity|].
  apply (debug_prints_the_body_read Samples.about_bob link s "a!" "a!"
           (fetch link s).2).
  - reflexivity.
  - revert Hout. generalize (fetch link s). intros [o s1] Hout.
    simpl in Hout. rewrite Hout. reflexivity.
Defined.

Lemma error_comes_with_nil_result_witness :
  let s := (Demo.fresh_session, Demo.start (Demo.rejecting 5 [])) in
  exists r e s',
    invoke Samples.about_bob s = (Returns (r, Some e), s')
    /\ r = ARedditor None.
Proof.
  cbv zeta.
  set (s := (Demo.fresh_session, Demo.start (Demo.rejecting 5 []))).
  assert ((invoke Samples.about_bob s).1 = Returns (ARedditor None, Some ErrNoClient))
    as Hout by (vm_compute; reflexivity).
  exists (ARedditor None), ErrNoClient, (invoke Samples.about_bob s).2.
  assert (invoke Samples.about_bob s
          = (Returns (ARedditor None, Some ErrNoClient), (invoke Samples.about_bob s).2))
    as E.
  { revert Hout. generalize (invoke Samples.about_bob s). intros [o s1] Hout.
    simpl in Hout. rewrite Hout. reflexivity. }
  split; [exact E|].
  exact (proj1 (error_comes_with_nil_result Samples.about_bob s (ARedditor None)
                  ErrNoClient (invoke Samples.about_bob s).2 E)).
Defined.

(** Two calls of [UserTrophies] use two cells: the records of the first
    call still read the last trophy of the first call. *)
Example UserTrophies_twice :
  let s := (Demo.established, Demo.start (Demo.granting 5 [inl "ab"; inl "cd"])) in
  let s1 := exec_all [OpCall (Samples.trophies "bob")] s in
  let s2 := exec_all [OpCall (Samples.trophies "ann")] s1 in
  (UserTrophies "ann" s1).1 = Returns ([1%nat; 1%nat], None)
  /\ load s2.2 0%nat = Some "b"
  /\ load s2.2 1%nat = Some "d".
Proof. vm_compute. repeat split; reflexivity. Qed.

End Scenarios_more.
